(** * update_rss.py: RSS feeds built from GitHub issues

    A shallow embedding of [src/update_rss.py]: the element tree the
    program builds ([RssElement], [RssDocument]), the semantic comparison
    with the previously published document ([RssDocument.equals]), the
    configuration fingerprint ([hash_config]) and the driver ([main]) with
    its request cache.

    Conventions of the embedding.
    - A Python [str] is a [string] of 8-bit characters (its UTF-8 bytes);
      case mapping and white space are those of the ASCII range.
    - A value decoded from JSON is a [json] tree; integers are the only
      numbers (the program reads no float).
    - A Python exception is a value of [exn], carried by [result].
    - A [dict] whose iteration order the program observes is an
      association list in insertion order; a [dict] only looked up or
      compared is a [gmap]. *)

From Stdlib Require Import String Ascii List ZArith NArith Lia.
From Stdlib Require Import DecimalString.
From stdpp Require Import base option list gmap strings sorting.

Set Warnings "-register-all".

(** ** Strings *)

Module Str.

Definition LF : ascii := "010"%char.
Definition CR : ascii := "013"%char.

(** ["\n"], ["\r\n"] and ["\r\n\r\n"] *)
Definition nl : string := String LF "".
Definition crlf : string := String CR (String LF "").
Definition blank_line : string := crlf +:+ crlf.

(** [s * n] *)
Fixpoint repeat (s : string) (n : nat) : string :=
  match n with
  | O => ""
  | S k => s +:+ repeat s k
  end.

(** [c.isspace()] on the ASCII range: TAB, LF, VT, FF, CR, FS, GS, RS,
    US and the space. *)
Definition isspace (c : ascii) : bool :=
  let n := nat_of_ascii c in
  (Nat.leb 9 n && Nat.leb n 13) || (Nat.leb 28 n && Nat.leb n 32).

Fixpoint lstrip (s : string) : string :=
  match s with
  | String c r => if isspace c then lstrip r else s
  | EmptyString => EmptyString
  end.

Fixpoint rstrip (s : string) : string :=
  match s with
  | EmptyString => EmptyString
  | String c r =>
      match rstrip r with
      | EmptyString => if isspace c then EmptyString else String c EmptyString
      | r' => String c r'
      end
  end.

(** [s.strip()] *)
Definition strip (s : string) : string := rstrip (lstrip s).

Definition lower_ascii (c : ascii) : ascii :=
  let n := nat_of_ascii c in
  if Nat.leb 65 n && Nat.leb n 90 then ascii_of_nat (n + 32) else c.

(** [s.lower()] *)
Fixpoint lower (s : string) : string :=
  match s with
  | EmptyString => EmptyString
  | String c r => String (lower_ascii c) (lower r)
  end.

(** [s.split(sep, 1)[0]] for a non-empty [sep]: what precedes the first
    occurrence of [sep], the whole of [s] when there is none. *)
Fixpoint split_head (sep s : string) : string :=
  match s with
  | EmptyString => EmptyString
  | String c r =>
      if String.prefix sep s then EmptyString
      else String c (split_head sep r)
  end.

(** [s.replace(old, new)] for a non-empty [old]: occurrences are taken
    from the left and do not overlap; [skip] counts the characters of
    the occurrence being replaced that are still to be passed over. *)
Fixpoint replace_from (old new : string) (skip : nat) (s : string) : string :=
  match s with
  | EmptyString => EmptyString
  | String c r =>
      match skip with
      | S k => replace_from old new k r
      | O =>
          if String.prefix old s
          then new +:+ replace_from old new (String.length old - 1) r
          else String c (replace_from old new 0 r)
      end
  end.

Definition replace (old new s : string) : string := replace_from old new 0 s.

(** [s[:n]] for [0 <= n] *)
Definition take (n : nat) (s : string) : string := String.substring 0 n s.

(** [s[:-n]] for [0 < n] *)
Definition drop_last (n : nat) (s : string) : string :=
  String.substring 0 (String.length s - n) s.

(** [str(n)] for an [int] *)
Definition of_Z (n : Z) : string := NilZero.string_of_int (Z.to_int n).

End Str.

(** ** JSON values and exceptions *)

Inductive json : Type :=
  | JNull
  | JBool (b : bool)
  | JInt (n : Z)
  | JStr (s : string)
  | JList (l : list json)
  | JDict (d : list (string * json)).

(** The exceptions the program can meet.  [ParseError] is the one of
    [xml.etree.ElementTree]; [TransportError] stands for what [httpx]
    raises when no response arrives (connection failure, timeout). *)
Inductive exn : Type :=
  | KeyError (key : string)
  | TypeError
  | AttributeError
  | IndexError
  | ValueError
  | ParseError
  | TransportError.

Inductive result (A : Type) : Type :=
  | Ok (a : A)
  | Raise (e : exn).
Arguments Ok {A} a.
Arguments Raise {A} e.

#[export] Instance result_ret : MRet result := fun A a => Ok a.
#[export] Instance result_bind : MBind result :=
  fun A B f m => match m with Ok a => f a | Raise e => Raise e end.
#[export] Instance result_fmap : FMap result :=
  fun A B f m => match m with Ok a => Ok (f a) | Raise e => Raise e end.

(** [Some] as a value, [None] as the exception [e] *)
Definition or_raise {A} (e : exn) (o : option A) : result A :=
  match o with
  | Some a => Ok a
  | None => Raise e
  end.

Module Py.

(** [d.get(k)] on an association list *)
Fixpoint assoc {A} (k : string) (d : list (string * A)) : option A :=
  match d with
  | [] => None
  | (k', v) :: r => if String.eqb k k' then Some v else assoc k r
  end.

(** [j[k]] for a string [k] *)
Definition getitem (j : json) (k : string) : result json :=
  match j with
  | JDict d =>
      match assoc k d with
      | Some v => Ok v
      | None => Raise (KeyError k)
      end
  | _ => Raise TypeError
  end.

(** The receiver of a [str] method ([lower], [strip]): any other value
    has no such attribute. *)
Definition str_method (j : json) : result string :=
  match j with
  | JStr s => Ok s
  | _ => Raise AttributeError
  end.

(** A value sliced and concatenated with a [str] *)
Definition str_operand (j : json) : result string :=
  match j with
  | JStr s => Ok s
  | _ => Raise TypeError
  end.

(** A value given as the text of an element: a [str], or [None].  The
    source stores any value and fails on another type only when the
    tree is serialized; the embedding raises [TypeError] at once. *)
Definition text_arg (j : json) : result (option string) :=
  match j with
  | JStr s => Ok (Some s)
  | JNull => Ok None
  | _ => Raise TypeError
  end.

(** [f"{j}"]: the scalars are rendered as Python does; a list or a
    dict, whose [repr] the embedding does not define, raises
    [TypeError]. *)
Definition format (j : json) : result string :=
  match j with
  | JStr s => Ok s
  | JInt n => Ok (Str.of_Z n)
  | JBool true => Ok "True"
  | JBool false => Ok "False"
  | JNull => Ok "None"
  | _ => Raise TypeError
  end.

(** [for x in j] over a decoded list.  An empty [str] or [dict] also
    iterates (over nothing), and a value that cannot be iterated raises
    [TypeError].  A non-empty [str] or [dict], which Python iterates by
    character or by key, raises [TypeError] as well: so do, in the
    loops over issues and labels, the elements it would yield at their
    first use; as a list of authorized creators it is outside the
    embedding. *)
Definition iter (j : json) : result (list json) :=
  match j with
  | JList l => Ok l
  | JStr "" => Ok []
  | JDict [] => Ok []
  | _ => Raise TypeError
  end.

(** [x == s] for a string literal [s] *)
Definition eq_str (j : json) (s : string) : bool :=
  match j with
  | JStr t => String.eqb t s
  | _ => false
  end.

(** [a == b] on decoded values: lists are compared in order,
    dictionaries whatever the order of their keys, and [True] and
    [False] equal 1 and 0. *)
Fixpoint eq (a b : json) : bool :=
  match a, b with
  | JNull, JNull => true
  | JBool x, JBool y => Bool.eqb x y
  | JBool x, JInt n | JInt n, JBool x => Z.eqb n (if x then 1 else 0)
  | JInt m, JInt n => Z.eqb m n
  | JStr s, JStr t => String.eqb s t
  | JList l, JList k =>
      (fix all2 (l k : list json) : bool :=
         match l, k with
         | [], [] => true
         | x :: l', y :: k' => eq x y && all2 l' k'
         | _, _ => false
         end) l k
  | JDict d, JDict e =>
      Nat.eqb (length d) (length e)
      && (fix all (d : list (string * json)) : bool :=
            match d with
            | [] => true
            | (key, v) :: d' =>
                match assoc key e with
                | Some v' => eq v v'
                | None => false
                end && all d'
            end) d
  | _, _ => false
  end.

(** [mapM] in the [result] monad, left to right *)
Fixpoint traverse {A B} (f : A → result B) (l : list A) : result (list B) :=
  match l with
  | [] => Ok []
  | x :: r => y ← f x; ys ← traverse f r; Ok (y :: ys)
  end.

End Py.

(** ** Element trees ([xml.etree.ElementTree]) *)

Inductive Element : Type :=
  mkElement {
    tag : string;
    attrib : list (string * string);
    text : option string;
    tail : option string;
    children : list Element
  }.

Module ET.

Definition with_tail (e : Element) (t : option string) : Element :=
  mkElement (tag e) (attrib e) (text e) t (children e).

(** [etree.SubElement(parent, ...)] seen from the parent: the node is
    appended to the parent's children. *)
Definition append (parent node : Element) : Element :=
  mkElement (tag parent) (attrib parent) (text parent) (tail parent)
            (children parent ++ [node]).

(** [e.find(t)]: the first child with tag [t] *)
Definition find (e : Element) (t : string) : option Element :=
  List.find (fun c => String.eqb (tag c) t) (children e).

(** [e.findall(t)] *)
Definition findall (e : Element) (t : string) : list Element :=
  List.filter (fun c => String.eqb (tag c) t) (children e).

(** [e.findall("t1/t2")] *)
Definition findall2 (e : Element) (t1 t2 : string) : list Element :=
  flat_map (fun c => findall c t2) (findall e t1).

(** [e.findtext(t)]: [None] when no child has the tag, the empty
    string when the child found has no text. *)
Definition findtext (e : Element) (t : string) : option string :=
  match find e t with
  | Some c => Some (default "" (text c))
  | None => None
  end.

(** [e.findtext(t, default=d)] *)
Definition findtext_default (e : Element) (t d : string) : string :=
  default d (findtext e t).

(** [e.findtext("t1/t2")] *)
Definition findtext2 (e : Element) (t1 t2 : string) : option string :=
  match findall2 e t1 t2 with
  | c :: _ => Some (default "" (text c))
  | [] => None
  end.

End ET.

(** ** Building the feed document *)

Definition GH_HOST : string := "https://api.github.com".
Definition NS_URL : string := "https://arksine.github.io/moonlight".

(** ["\n" + "    " * level] *)
Definition indent (level : nat) : string := Str.nl +:+ Str.repeat "    " level.

(** The node [RssElement] creates: a node with no text is assumed to have
    children and gets the indentation of its first child as text. *)
Definition rss_node (tag : string) (text : option string)
    (level : nat) (is_last : bool) : Element :=
  mkElement tag []
    (Some (match text with
           | Some t => t
           | None => indent (level + 1)
           end))
    (Some (if is_last then indent (level - 1) else indent level))
    [].

(** [RssElement(parent, tag, text, level, is_last)], as the parent it
    leaves behind. *)
Definition RssElement (parent : Element) (tag : string) (text : option string)
    (level : nat) (is_last : bool) : Element :=
  ET.append parent (rss_node tag text level is_last).

(** [self.root] holds [self.channel] as its only child and both names
    reach the same object: the record keeps the channel, and [root]
    rebuilds the root around it. *)
Record RssDocument : Type := mkRssDocument {
  name : string;
  repo : string;
  authorized : list string;
  date : string;
  cfg_hash : string;
  channel : Element
}.

Definition root (doc : RssDocument) : Element :=
  mkElement "rss" [("version", "2.0"); ("xmlns:moonlight", NS_URL)]
    (Some (Str.nl +:+ "    ")) None [channel doc].

(** [RssDocument.__init__].  [date_str] is the clock read by
    [datetime.now], already rendered by [email.utils.format_datetime]. *)
Definition RssDocument_init (date_str name : string) (options : json)
    (cfg_hash : string) : result RssDocument :=
  owner ← Py.getitem options "repo_owner" ≫= Py.format;
  rname ← Py.getitem options "repo_name" ≫= Py.format;
  let repo := owner +:+ "/" +:+ rname in
  creators ← Py.getitem options "authorized_creators" ≫= Py.iter;
  authorized ← Py.traverse (fun ac => s ← Py.str_method ac; Ok (Str.lower s)) creators;
  let channel := rss_node "channel" None 1 true in
  let channel := RssElement channel "title" (Some (Str.lower repo)) 2 false in
  let channel :=
    RssElement channel "link" (Some ("https://github.com/" +:+ repo)) 2 false in
  description ← Py.getitem options "description" ≫= Py.text_arg;
  let channel := RssElement channel "description" description 2 false in
  let channel := RssElement channel "pubDate" (Some date_str) 2 false in
  let channel := RssElement channel "moonlight:configHash" (Some cfg_hash) 2 false in
  Ok (mkRssDocument name repo authorized date_str cfg_hash channel).

(** Lines 81-85: the description of an item, from the body of its issue. *)
Definition item_description (body : string) : string :=
  let desc := Str.strip body in
  let desc := Str.split_head Str.blank_line desc in
  let desc := Str.replace Str.crlf " " desc in
  if Nat.ltb 512 (String.length desc)
  then Str.take 509 desc +:+ "..."
  else desc.

(** Lines 94-99: the first label named [critical] decides, and the labels
    after it are not looked at. *)
Fixpoint item_priority (labels : list json) : result string :=
  match labels with
  | [] => Ok "normal"
  | lbl :: rest =>
      n ← Py.getitem lbl "name";
      if Py.eq_str n "critical" then Ok "high" else item_priority rest
  end.

Section Build.

(** [datetime.fromisoformat] followed by [email.utils.format_datetime]
    with [usegmt=True]: library code, taken as given.  [None] is the
    [ValueError] either of them raises. *)
Variable rfc2822_of_iso : string → option string.

(** One turn of the loop of [add_items_from_issues]: [None] when the
    issue is skipped.  The source attaches the item to the channel
    before it fills it; the tree is the same. *)
Definition item_of_issue (doc : RssDocument) (issue : json)
    : result (option Element) :=
  user ← Py.getitem issue "user" ≫= (fun u => Py.getitem u "login");
  user_lower ← Str.lower <$> Py.str_method user;
  if negb (bool_decide (user_lower ∈ authorized doc)) then Ok None else
  let item := rss_node "item" None 2 false in
  title ← Py.getitem issue "title" ≫= Py.text_arg;
  let item := RssElement item "title" title 3 false in
  link ← Py.getitem issue "html_url" ≫= Py.text_arg;
  let item := RssElement item "link" link 3 false in
  body ← Py.getitem issue "body" ≫= Py.str_method;
  let item := RssElement item "description" (Some (item_description body)) 3 false in
  created ← Py.getitem issue "created_at" ≫= Py.str_operand;
  rfc_date ← or_raise ValueError
               (rfc2822_of_iso (Str.drop_last 1 created +:+ "+00:00"));
  let item := RssElement item "pubDate" (Some rfc_date) 3 false in
  labels ← Py.getitem issue "labels" ≫= Py.iter;
  priority ← item_priority labels;
  let item := RssElement item "category" (Some priority) 3 false in
  number ← Py.getitem issue "number" ≫= Py.format;
  let guid := Str.lower (repo doc +:+ "/issue/" +:+ number) in
  Ok (Some (RssElement item "guid" (Some guid) 3 true)).

Fixpoint add_items_loop (doc : RssDocument) (channel : Element)
    (issues : list json) : result Element :=
  match issues with
  | [] => Ok channel
  | issue :: rest =>
      item ← item_of_issue doc issue;
      add_items_loop doc
        (match item with
         | Some i => ET.append channel i
         | None => channel
         end) rest
  end.

(** [last = list(self.channel)[-1]; last.tail = last.tail[:-4]] *)
Definition dedent_last (channel : Element) : result Element :=
  match List.rev (children channel) with
  | [] => Raise IndexError
  | last :: before =>
      match tail last with
      | None => Raise TypeError
      | Some t =>
          Ok (mkElement (tag channel) (attrib channel) (text channel)
                (tail channel)
                (List.rev before ++ [ET.with_tail last (Some (Str.drop_last 4 t))]))
      end
  end.

Definition with_channel (doc : RssDocument) (channel : Element) : RssDocument :=
  mkRssDocument (name doc) (repo doc) (authorized doc) (date doc)
                (cfg_hash doc) channel.

(** [RssDocument.add_items_from_issues] *)
Definition add_items_from_issues (doc : RssDocument) (issues : json)
    : result RssDocument :=
  l ← Py.iter issues;
  channel ← add_items_loop doc (channel doc) l;
  channel ← dedent_last channel;
  Ok (with_channel doc channel).

End Build.

(** ** Comparison with the published document *)

(** What [etree.parse] makes of a file [tree.write] produced, for the
    trees this program writes (their tags and attributes are constants
    of the program), per the ElementTree documentation and the XML
    recommendation.
    - The writer escapes [&], [<] and [>] in a text and writes every
      other character as it is; the parser rejects the file when a text
      holds a character XML cannot carry: a control character other than
      TAB, LF and CR, or U+FFFE or U+FFFF.
    - The parser reads a CR LF, and a CR alone, as one LF.
    - An element written with an empty text, or tail, comes back with
      none.
    - The [xmlns:moonlight] declaration of the root is consumed, and a
      tag written with the [moonlight:] prefix comes back qualified by
      the namespace URL. *)
Definition xml_forbidden (c : ascii) : bool :=
  let n := nat_of_ascii c in
  Nat.ltb n 32 && negb (Nat.eqb n 9) && negb (Nat.eqb n 10) && negb (Nat.eqb n 13).

(** The UTF-8 bytes of U+FFFE and of U+FFFF *)
Definition utf8_fffe : string :=
  String (ascii_of_nat 239) (String (ascii_of_nat 191) (String (ascii_of_nat 190) "")).

Definition utf8_ffff : string :=
  String (ascii_of_nat 239) (String (ascii_of_nat 191) (String (ascii_of_nat 191) "")).

Fixpoint xml_text_ok (s : string) : bool :=
  match s with
  | EmptyString => true
  | String c r =>
      negb (xml_forbidden c)
      && negb (String.prefix utf8_fffe s) && negb (String.prefix utf8_ffff s)
      && xml_text_ok r
  end.

Fixpoint xml_ok (e : Element) : bool :=
  match e with
  | mkElement _ _ x tl ch =>
      xml_text_ok (default "" x) && xml_text_ok (default "" tl)
      && forallb xml_ok ch
  end.

Definition xml_newlines (s : string) : string :=
  Str.replace (String Str.CR "") Str.nl (Str.replace Str.crlf Str.nl s).

Definition parsed_tag (t : string) : string :=
  if String.prefix "moonlight:" t
  then "{" +:+ NS_URL +:+ "}" +:+ String.substring 10 (String.length t - 10) t
  else t.

Definition parsed_text (x : option string) : option string :=
  match x with
  | None => None
  | Some s =>
      let s' := xml_newlines s in
      if String.eqb s' "" then None else Some s'
  end.

Fixpoint parsed (e : Element) : Element :=
  match e with
  | mkElement t a x tl ch =>
      mkElement (parsed_tag t)
        (List.filter (fun kv => negb (String.prefix "xmlns:" (fst kv))) a)
        (parsed_text x) (parsed_text tl) (List.map parsed ch)
  end.

(** [etree.parse(path).getroot()], from the tree the file was written
    from *)
Definition etree_parse (written : Element) : result Element :=
  if xml_ok written then Ok (parsed written) else Raise ParseError.

(** The files [assets/<name>.xml], each held as the tree it was written
    from. *)
Abbreviation Assets := (gmap string Element).

(** [RssDocument.write] *)
Definition write (doc : RssDocument) (assets : Assets) : Assets :=
  <[name doc := root doc]> assets.

(** The dictionary [get_feed_info] returns.  Its [last_pub] entry, which
    nothing reads and whose computation cannot raise, is left out. *)
Record FeedInfo : Type := mkFeedInfo {
  fi_root : option Element;
  fi_config_hash : option string
}.

Definition get_feed_info (assets : Assets) (name : string) : result FeedInfo :=
  match assets !! name with
  | Some written =>
      r ← etree_parse written;
      Ok (mkFeedInfo (Some r)
            (ET.findtext2 r "channel" ("{" +:+ NS_URL +:+ "}configHash")))
  | None => Ok (mkFeedInfo None None)
  end.

Definition compared_tags : list string :=
  ["title"; "link"; "description"; "pubDate"; "category"].

(** [{node.findtext("guid", default=""): node for node in last_items}]:
    of two nodes with one guid the later one stays. *)
Definition last_uid_map (last_items : list Element) : gmap string Element :=
  foldl (fun m node => <[ET.findtext_default node "guid" "" := node]> m)
        ∅ last_items.

(** Lines 128-130 *)
Definition same_fields (item last_item : Element) : bool :=
  forallb (fun tag =>
             bool_decide (Some (ET.findtext_default item tag "")
                          = ET.findtext last_item tag))
          compared_tags.

(** Lines 119-131 *)
Fixpoint items_match (m : gmap string Element) (cur_items : list Element) : bool :=
  match cur_items with
  | [] => true
  | item :: rest =>
      let guid := ET.findtext_default item "guid" "" in
      if String.eqb guid "" then false else
      match m !! guid with
      | None => false
      | Some last_item =>
          if same_fields item last_item then items_match m rest else false
      end
  end.

(** [RssDocument.equals] *)
Definition equals (self : RssDocument) (feed_info : FeedInfo) : bool :=
  match fi_root feed_info with
  | None => false
  | Some other_root =>
      if negb (bool_decide (Some (cfg_hash self) = fi_config_hash feed_info))
      then false else
      let cur_items := ET.findall2 (root self) "channel" "item" in
      let last_items := ET.findall2 other_root "channel" "item" in
      if negb (Nat.eqb (length cur_items) (length last_items)) then false else
      items_match (last_uid_map last_items) cur_items
  end.

(** ** The configuration fingerprint *)

Module Dict.

(** [d[k] = v] on an insertion-ordered dictionary: a key already
    present keeps its place. *)
Fixpoint set {A} (k : string) (v : A) (d : list (string * A)) : list (string * A) :=
  match d with
  | [] => [(k, v)]
  | (k', v') :: r =>
      if String.eqb k k' then (k', v) :: r else (k', v') :: set k v r
  end.

(** [dict(items)] *)
Definition of_items {A} (items : list (string * A)) : list (string * A) :=
  foldl (fun d kv => set (fst kv) (snd kv) d) [] items.

Fixpoint insert_by_key {A} (x : string * A) (l : list (string * A))
    : list (string * A) :=
  match l with
  | [] => [x]
  | y :: r =>
      if String.leb (fst x) (fst y) then x :: l else y :: insert_by_key x r
  end.

(** [sorted(items, key=lambda x: x[0])]: a stable sort on the keys,
    which are compared as Python compares strings, character by
    character. *)
Definition sorted_by_key {A} (items : list (string * A)) : list (string * A) :=
  foldr insert_by_key [] items.

End Dict.

(** The 64 lower-case hexadecimal digits of a 256-bit digest *)
Definition hex_digit (n : N) : ascii :=
  match n with
  | 0 => "0" | 1 => "1" | 2 => "2" | 3 => "3" | 4 => "4" | 5 => "5"
  | 6 => "6" | 7 => "7" | 8 => "8" | 9 => "9" | 10 => "a" | 11 => "b"
  | 12 => "c" | 13 => "d" | 14 => "e" | _ => "f"
  end%N%char.

Fixpoint hex_digits (k : nat) (n : N) (acc : string) : string :=
  match k with
  | O => acc
  | S k' => hex_digits k' (n / 16)%N (String (hex_digit (n mod 16)%N) acc)
  end.

Definition hexdigest (d : N) : string := hex_digits 64 d "".

Section Hash.

(** [hashlib.sha256] on the bytes fed to it, the digest read as a
    number, and [json.dumps]: library code, taken as given. *)
Variable sha256 : string → N.
Variable json_dumps : json → string.

(** [hash_config]: the two [update]s hash the concatenation. *)
Definition hash_config (name : string) (options : json) : result string :=
  match options with
  | JDict d =>
      let sorted_opts := Dict.of_items (Dict.sorted_by_key d) in
      Ok (hexdigest (sha256 (name +:+ json_dumps (JDict sorted_opts))))
  | _ => Raise AttributeError
  end.

End Hash.

(** ** SHA-256 ([hashlib.sha256], FIPS 180-4) *)

Module SHA256.

Definition mask : N := 0xffffffff.

(** Addition of 32-bit words *)
Definition add (x y : N) : N := N.land (x + y) mask.

(** Rotation and shift of a 32-bit word to the right *)
Definition rotr (n x : N) : N :=
  N.lor (N.shiftr x n) (N.land (N.shiftl x (32 - n)) mask).

Definition xor3 (x y z : N) : N := N.lxor x (N.lxor y z).

Definition big_sigma0 (x : N) : N := xor3 (rotr 2 x) (rotr 13 x) (rotr 22 x).
Definition big_sigma1 (x : N) : N := xor3 (rotr 6 x) (rotr 11 x) (rotr 25 x).
Definition small_sigma0 (x : N) : N := xor3 (rotr 7 x) (rotr 18 x) (N.shiftr x 3).
Definition small_sigma1 (x : N) : N := xor3 (rotr 17 x) (rotr 19 x) (N.shiftr x 10).

Definition choose (x y z : N) : N :=
  N.lxor (N.land x y) (N.land (N.lxor x mask) z).

Definition majority (x y z : N) : N :=
  xor3 (N.land x y) (N.land x z) (N.land y z).

(** The primes up to [bound], by trial division *)
Definition is_prime (n : nat) : bool :=
  forallb (fun d => negb (Nat.eqb (n mod d) 0)) (seq 2 (n - 2)).

Definition primes (bound : nat) : list N :=
  List.map N.of_nat (List.filter is_prime (seq 2 (bound - 1))).

(** The integer part of the cube root of [n], found bit by bit from
    bit [k - 1] down; [r] holds the bits found. *)
Fixpoint cube_root (k : nat) (n r : N) : N :=
  match k with
  | O => r
  | S k' =>
      let r' := N.lor r (N.shiftl 1 (N.of_nat k')) in
      cube_root k' n (if (r' * r' * r' <=? n)%N then r' else r)
  end.

(** The first 32 bits of the fractional parts of the cube roots of the
    first 64 primes *)
Definition round_constants : list N :=
  Eval vm_compute in
    List.map (fun p => N.land (cube_root 40 (N.shiftl p 96) 0) mask) (primes 311).

(** The first 32 bits of the fractional parts of the square roots of the
    first 8 primes *)
Definition initial_hash : list N :=
  Eval vm_compute in
    List.map (fun p => N.land (N.sqrt (N.shiftl p 64)) mask) (primes 19).

(** The message followed by the bit 1, zeros up to 56 modulo 64 bytes,
    and its length in bits on 8 bytes *)
Fixpoint big_endian (k : nat) (n : N) (acc : list N) : list N :=
  match k with
  | O => acc
  | S k' => big_endian k' (N.shiftr n 8) (N.land n 0xff :: acc)
  end.

Definition padded (bytes : list N) : list N :=
  let len := length bytes in
  let zeros := (64 - (len + 9) mod 64) mod 64 in
  bytes ++ [0x80%N] ++ List.repeat 0%N zeros
        ++ big_endian 8 (8 * N.of_nat len) [].

(** Words of 4 bytes, the most significant first *)
Fixpoint words (bytes : list N) : list N :=
  match bytes with
  | a :: b :: c :: d :: rest =>
      N.lor (N.shiftl a 24) (N.lor (N.shiftl b 16) (N.lor (N.shiftl c 8) d))
      :: words rest
  | _ => []
  end.

(** The message schedule, the latest word first: [recent] holds
    [W(t-1), W(t-2), ...]. *)
Definition next_word (recent : list N) : N :=
  add (add (small_sigma1 (nth 1 recent 0%N)) (nth 6 recent 0%N))
      (add (small_sigma0 (nth 14 recent 0%N)) (nth 15 recent 0%N)).

Fixpoint extend (k : nat) (recent : list N) : list N :=
  match k with
  | O => recent
  | S k' => extend k' (next_word recent :: recent)
  end.

Definition schedule (block : list N) : list N :=
  List.rev (extend 48 (List.rev block)).

(** One round on the working variables [a .. h] *)
Definition round (v : list N) (kw : N * N) : list N :=
  match v with
  | [a; b; c; d; e; f; g; h] =>
      let t1 := add (add (add h (big_sigma1 e)) (choose e f g))
                    (add kw.1 kw.2) in
      let t2 := add (big_sigma0 a) (majority a b c) in
      [add t1 t2; a; b; c; add d t1; e; f; g]
  | _ => v
  end.

Definition compress (hash block : list N) : list N :=
  let v := fold_left round (combine round_constants (schedule block)) hash in
  List.map (fun p => add p.1 p.2) (combine hash v).

Fixpoint blocks (fuel : nat) (ws : list N) (hash : list N) : list N :=
  match fuel with
  | O => hash
  | S k =>
      match ws with
      | [] => hash
      | _ => blocks k (List.skipn 16 ws) (compress hash (List.firstn 16 ws))
      end
  end.

(** The digest of a sequence of bytes, as a number below [2^256] *)
Definition digest_bytes (bytes : list N) : N :=
  let ws := words (padded bytes) in
  fold_left (fun acc w => N.lor (N.shiftl acc 32) w)
            (blocks (length ws) ws initial_hash) 0%N.

Definition digest (message : string) : N :=
  digest_bytes (List.map N_of_ascii (list_ascii_of_string message)).

End SHA256.

(** ** [json.dumps] with its default settings *)

Module Json.

Definition quote : string := String "034"%char "".
Definition backslash : string := String "092"%char "".

Definition hex4 (n : N) : string := hex_digits 4 n "".

(** One code point, as [ensure_ascii] writes it *)
Definition escape (cp : N) : string :=
  match cp with
  | 34 => backslash +:+ quote
  | 92 => backslash +:+ backslash
  | 8 => backslash +:+ "b"
  | 9 => backslash +:+ "t"
  | 10 => backslash +:+ "n"
  | 12 => backslash +:+ "f"
  | 13 => backslash +:+ "r"
  | _ =>
      if (32 <=? cp) && (cp <=? 126) then String (ascii_of_N cp) ""
      else if cp <? 0x10000 then backslash +:+ "u" +:+ hex4 cp
      else
        let n := cp - 0x10000 in
        backslash +:+ "u" +:+ hex4 (N.lor 0xd800 (N.land (N.shiftr n 10) 0x3ff))
        +:+ backslash +:+ "u" +:+ hex4 (N.lor 0xdc00 (N.land n 0x3ff))
  end%N.

(** The six low bits of a continuation byte *)
Definition low6 (c : ascii) : N := N.land (N_of_ascii c) 0x3f.

(** The characters of a string, read from its UTF-8 bytes and escaped.
    A byte that begins no complete sequence is taken as a character of
    its own. *)
Fixpoint escaped (s : string) : string :=
  match s with
  | EmptyString => EmptyString
  | String c r =>
      let b := N_of_ascii c in
      if (b <? 0xc0)%N then escape b +:+ escaped r
      else
        match r with
        | String c1 r1 =>
            if (b <? 0xe0)%N then
              escape (N.lor (N.shiftl (N.land b 0x1f) 6) (low6 c1)) +:+ escaped r1
            else
              match r1 with
              | String c2 r2 =>
                  if (b <? 0xf0)%N then
                    escape (N.lor (N.shiftl (N.land b 0x0f) 12)
                                  (N.lor (N.shiftl (low6 c1) 6) (low6 c2)))
                    +:+ escaped r2
                  else
                    match r2 with
                    | String c3 r3 =>
                        escape (N.lor (N.shiftl (N.land b 0x07) 18)
                                  (N.lor (N.shiftl (low6 c1) 12)
                                     (N.lor (N.shiftl (low6 c2) 6) (low6 c3))))
                        +:+ escaped r3
                    | EmptyString => escape b +:+ escaped r
                    end
              | EmptyString => escape b +:+ escaped r
              end
        | EmptyString => escape b
        end
  end.

Definition string_literal (s : string) : string := quote +:+ escaped s +:+ quote.

(** [", ".join(parts)] *)
Fixpoint join (parts : list string) : string :=
  match parts with
  | [] => ""
  | [p] => p
  | p :: rest => p +:+ ", " +:+ join rest
  end.

(** [json.dumps(j)]: the keys of a dictionary come in its own order,
    at every depth. *)
Fixpoint dumps (j : json) : string :=
  match j with
  | JNull => "null"
  | JBool true => "true"
  | JBool false => "false"
  | JInt n => Str.of_Z n
  | JStr s => string_literal s
  | JList l => "[" +:+ join (List.map dumps l) +:+ "]"
  | JDict d =>
      "{" +:+ join (List.map (fun kv => string_literal kv.1 +:+ ": " +:+ dumps kv.2) d)
      +:+ "}"
  end.

End Json.

(** [hash_config] with the two library functions as modelled above *)
Definition fingerprint (name : string) (options : json) : result string :=
  hash_config SHA256.digest Json.dumps name options.

(** ** The driver *)

(** The request cache: feed name to its entry, an entry holding [etag]
    and [config_hash]. *)
Abbreviation Cache := (gmap string (gmap string string)).

(** A response of [httpx]: header names are matched in lower case;
    [resp_json] is [resp.json()], which raises [ValueError] on a body
    that is no JSON. *)
Record Response : Type := mkResponse {
  status_code : Z;
  resp_headers : gmap string string;
  resp_json : result json
}.

(** What a run reads from outside: its arguments, the environment, the
    files, the network and the clock (by feed name, the time at which
    that feed's document is created, rendered).  [http_get] raises what
    [client.get] raises. *)
Record World : Type := mkWorld {
  arg_token : option string;
  enable_cache : bool;
  env_GITHUB_TOKEN : option string;
  env_FORCE_UPDATE : option string;
  cache_file : option Cache;
  config_file : list (string * json);
  asset_files : Assets;
  http_get : string → list (string * string) → result Response;
  clock : string → string
}.

(** What the loop of [main] carries from feed to feed. *)
Record RunState : Type := mkRunState {
  new_cache : Cache;
  need_commit : bool;
  assets : Assets
}.

(** How a run ends: it prints and returns, having perhaps called
    [write_cache], or an exception leaves [main], with the files as they
    are at that moment. *)
Inductive Outcome : Type :=
  | Finished (stdout : list string) (assets : Assets) (cache_written : option Cache)
  | Aborted (e : exn) (assets : Assets).

Inductive LoopResult : Type :=
  | LoopDone (st : RunState)
  | LoopRaised (e : exn) (st : RunState).

Section Main.

Variable rfc2822_of_iso : string → option string.
Variable sha256 : string → N.
Variable json_dumps : json → string.

Variable w : World.

(** [token or os.getenv('GITHUB_TOKEN', None)] *)
Definition token : option string :=
  match arg_token w with
  | Some t => if String.eqb t "" then env_GITHUB_TOKEN w else Some t
  | None => env_GITHUB_TOKEN w
  end.

(** [os.getenv("FORCE_UPDATE", "false").lower() == "true"] *)
Definition force : bool :=
  String.eqb (Str.lower (default "false" (env_FORCE_UPDATE w))) "true".

(** [read_cache()] when the cache is enabled, [{}] otherwise *)
Definition cache : Cache :=
  if enable_cache w then default ∅ (cache_file w) else ∅.

(** Lines 207-210 *)
Definition feed_url (options : json) : result string :=
  owner ← Py.getitem options "repo_owner" ≫= Py.format;
  repo ← Py.getitem options "repo_name" ≫= Py.format;
  let qs := "labels=announcement&per_page=20" in
  Ok (GH_HOST +:+ "/repos/" +:+ owner +:+ "/" +:+ repo +:+ "/issues?" +:+ qs).

(** Lines 211-216 *)
Definition request_headers (name : string) : list (string * string) :=
  ([("Accept", "application/vnd.github.v3+json")]
   ++ match token with
      | Some t => [("Authorization", "token " +:+ t)]
      | None => []
      end
   ++ match default ∅ (cache !! name) !! "etag" with
      | Some etag => [("If-None-Match", etag)]
      | None => []
      end).

(** Lines 207-218: the request a feed makes, and what comes back. *)
Definition fetch (feed : string * json) : result Response :=
  url ← feed_url feed.2;
  http_get w url (request_headers feed.1).

(** Lines 227-229 *)
Definition feed_document (name : string) (options : json) (cfg_hash : string)
    (resp : Response) : result RssDocument :=
  doc ← RssDocument_init (clock w name) name options cfg_hash;
  issues ← resp_json resp;
  add_items_from_issues rfc2822_of_iso doc issues.

(** The body of the loop of [main] for one feed (lines 198-232).  The
    cache entry is assigned where the turn ends, the source filling it
    in as it goes; the document is written by the last statement, so
    that a turn that raises leaves the files as it found them.  Reading
    the published file (line 203) raises when it does not parse. *)
Definition feed_step (st : RunState) (feed : string * json) : result RunState :=
  let '(name, options) := feed in
  let repo_cache := default ∅ (cache !! name) in
  cfg_hash ← hash_config sha256 json_dumps name options;
  let entry := <["config_hash" := cfg_hash]> repo_cache in
  feed_info ← get_feed_info (assets st) name;
  resp ← fetch feed;
  if Z.eqb (status_code resp) 304 then
    Ok (mkRunState (<[name := entry]> (new_cache st)) (need_commit st) (assets st))
  else if negb (Z.eqb (status_code resp) 200) then
    Ok (mkRunState (<[name := entry]> (new_cache st)) (need_commit st) (assets st))
  else
    let entry :=
      match resp_headers resp !! "etag" with
      | Some e => <["etag" := e]> entry
      | None => entry
      end in
    doc ← feed_document name options cfg_hash resp;
    if negb (equals doc feed_info) || force then
      Ok (mkRunState (<[name := entry]> (new_cache st)) true (write doc (assets st)))
    else
      Ok (mkRunState (<[name := entry]> (new_cache st)) (need_commit st) (assets st)).

(** [for name, options in config.items()]: the first turn that raises
    ends the loop, and the run. *)
Fixpoint run_feeds (feeds : list (string * json)) (st : RunState) : LoopResult :=
  match feeds with
  | [] => LoopDone st
  | feed :: rest =>
      match feed_step st feed with
      | Ok st' => run_feeds rest st'
      | Raise e => LoopRaised e st
      end
  end.

(** [new_cache = {}], [need_commit = False] and the files as found *)
Definition initial_state : RunState := mkRunState ∅ false (asset_files w).

(** [main] *)
Definition main : Outcome :=
  match run_feeds (config_file w) initial_state with
  | LoopRaised e st => Aborted e (assets st)
  | LoopDone st =>
      Finished
        [if need_commit st then "commit" else "skip"]
        (assets st)
        (if bool_decide (new_cache st ≠ cache) && enable_cache w
         then Some (new_cache st) else None)
  end.

(** A feed counts as changed when it was fetched with success and its
    document differs from the published one [a] holds, or the update
    is forced. *)
Definition feed_changed (a : Assets) (feed : string * json) : bool :=
  match hash_config sha256 json_dumps feed.1 feed.2,
        get_feed_info a feed.1, fetch feed with
  | Ok cfg_hash, Ok feed_info, Ok resp =>
      if Z.eqb (status_code resp) 200 then
        match feed_document feed.1 feed.2 cfg_hash resp with
        | Ok doc => negb (equals doc feed_info) || force
        | Raise _ => false
        end
      else false
  | _, _, _ => false
  end.

End Main.

(** ** Vocabulary of the statements *)

(** [doc = RssDocument(name, options, cfg_hash)] followed by
    [doc.add_items_from_issues(issues)]: a feed document just built. *)
Definition build_feed (rfc2822_of_iso : string → option string)
    (date_str name : string) (options : json) (cfg_hash : string)
    (issues : json) : result RssDocument :=
  doc ← RssDocument_init date_str name options cfg_hash;
  add_items_from_issues rfc2822_of_iso doc issues.

(** The items of a document, as [equals] finds them *)
Definition items_of (r : Element) : list Element := ET.findall2 r "channel" "item".

Definition guid_of (e : Element) : string := ET.findtext_default e "guid" "".

(** The channel [RssDocument.__init__] leaves *)
Definition channel_node (title link : string) (description : option string)
    (pubDate cfg_hash : string) : Element :=
  mkElement "channel" [] (Some (indent 2)) (Some (indent 0))
    [rss_node "title" (Some title) 2 false;
     rss_node "link" (Some link) 2 false;
     rss_node "description" description 2 false;
     rss_node "pubDate" (Some pubDate) 2 false;
     rss_node "moonlight:configHash" (Some cfg_hash) 2 false].

(** The item one turn of [add_items_from_issues] adds *)
Definition item_node (title link : option string)
    (description pubDate category guid : string) : Element :=
  mkElement "item" [] (Some (indent 3)) (Some (indent 2))
    [rss_node "title" title 3 false;
     rss_node "link" link 3 false;
     rss_node "description" (Some description) 3 false;
     rss_node "pubDate" (Some pubDate) 3 false;
     rss_node "category" (Some category) 3 false;
     rss_node "guid" (Some guid) 3 true].

(** The fields [add_items_from_issues] reads from an issue it keeps *)
Definition item_keys : list string :=
  ["title"; "html_url"; "body"; "created_at"; "labels"; "number"].

(** Two elements that differ at most in their tail *)
Definition same_content (e e' : Element) : Prop :=
  tag e' = tag e ∧ text e' = text e ∧ children e' = children e.

(** The last of [prev] that carries the guid [g] *)
Definition last_with_guid (prev : list Element) (g : string) (p : Element) : Prop :=
  ∃ l1 l2, prev = l1 ++ p :: l2 ∧ guid_of p = g
           ∧ ∀ q, q ∈ l2 → guid_of q ≠ g.

(** [last_item] has each compared field, with the text [item] has for it *)
Definition fields_agree (item last_item : Element) : Prop :=
  ∀ t, t ∈ compared_tags →
       ET.findtext last_item t = Some (ET.findtext_default item t "").

(** Equality as the specification words it: a previous document exists,
    with the same configuration hash and as many items, and every
    current item finds its guid among the previous items with equal
    title, link, description, pubDate and category. *)
Definition claimed_equal (cur : RssDocument) (info : FeedInfo) : bool :=
  match fi_root info with
  | None => false
  | Some r =>
      bool_decide (fi_config_hash info = Some (cfg_hash cur))
      && Nat.eqb (length (items_of (root cur))) (length (items_of r))
      && forallb (fun c =>
                    existsb (fun p => String.eqb (guid_of p) (guid_of c)
                                      && same_fields c p)
                            (items_of r))
                 (items_of (root cur))
  end.

(** The description as the specification words it: the first paragraph
    of the text, its line breaks collapsed to spaces, cut to 512
    characters. *)
Definition spec_description (body : string) : string :=
  let para := Str.split_head Str.blank_line body in
  let line := Str.replace Str.crlf " " para in
  if Nat.ltb 512 (String.length line)
  then Str.take 509 line +:+ "..."
  else line.

(** No carriage return in [s] *)
Fixpoint cr_free (s : string) : bool :=
  match s with
  | EmptyString => true
  | String c r => negb (Ascii.eqb c Str.CR) && cr_free r
  end.

(** No text of [e] holds a carriage return, at any depth *)
Fixpoint texts_stable (e : Element) : bool :=
  match e with
  | mkElement _ _ x _ ch => cr_free (default "" x) && forallb texts_stable ch
  end.

(** The order [sorted] puts the items of a dictionary in *)
Definition key_le {A} (x y : string * A) : Prop := String.le x.1 y.1.

(** ** Sample data

    A configuration, issues and worlds on which the definitions are run. *)

Module Sample.

(** The date conversion, tabulated on the one timestamp the examples
    use (1 January 2022 was a Saturday). *)
Definition rfc2822_of_iso (iso : string) : option string :=
  if String.eqb iso "2022-01-01T00:00:00+00:00"
  then Some "Sat, 01 Jan 2022 00:00:00 GMT"
  else None.

Definition options (repo_name : string) : json :=
  JDict [("repo_owner", JStr "Arksine");
         ("repo_name", JStr repo_name);
         ("description", JStr "Announcements");
         ("authorized_creators", JList [JStr "Arksine"])].

Definition issue_fields (title body : string) (number : Z) : list (string * json) :=
  [("html_url", JStr "https://github.com/Arksine/moonlight/issues/7");
   ("body", JStr body);
   ("created_at", JStr "2022-01-01T00:00:00Z");
   ("labels", JList [JDict [("name", JStr "announcement")]]);
   ("number", JInt number)].

Definition issue (login title body : string) (number : Z) : json :=
  JDict (("user", JDict [("login", JStr login)])
         :: ("title", JStr title) :: issue_fields title body number).

(** The same record with no [title] *)
Definition untitled_issue (login body : string) (number : Z) : json :=
  JDict (("user", JDict [("login", JStr login)]) :: issue_fields "" body number).

Definition now : string := "Sat, 05 Mar 2022 12:00:00 GMT".

Definition later : string := "Sun, 06 Mar 2022 12:00:00 GMT".

Definition build (date_str : string) (issues : list json) : result RssDocument :=
  build_feed rfc2822_of_iso date_str "moonlight" (options "moonlight") "c0ffee"
             (JList issues).

(** A document one of whose items carries no guid *)
Definition guidless : RssDocument :=
  mkRssDocument "moonlight" "Arksine/moonlight" ["arksine"] now "c0ffee"
    (mkElement "channel" [] None None
       [mkElement "item" [] None None [rss_node "title" (Some "Release") 3 false]]).

Definition url (repo_name : string) : string :=
  "https://api.github.com/repos/Arksine/" +:+ repo_name
  +:+ "/issues?labels=announcement&per_page=20".

Definition ok_response (issues : list json) : Response :=
  mkResponse 200 {["etag" := "W/1"]} (Ok (JList issues)).

Definition status_response (status : Z) : Response :=
  mkResponse status ∅ (Ok (JDict [("message", JStr "no content")])).

(** Two feeds, [moonlight] before [fluidd]; the cache is enabled. *)
Definition world (cache : option Cache)
    (http : string → list (string * string) → result Response) : World :=
  mkWorld None true None None cache
    [("moonlight", options "moonlight"); ("fluidd", options "fluidd")]
    ∅ http (fun _ => now).

Definition run (w : World) : Outcome :=
  main rfc2822_of_iso SHA256.digest Json.dumps w.

(** The world the next run finds: the files and the cache file as the
    run left them, the clock later, all else the same. *)
Definition successor (w : World) (o : Outcome) : World :=
  mkWorld (arg_token w) (enable_cache w) (env_GITHUB_TOKEN w) (env_FORCE_UPDATE w)
    (match o with
     | Finished _ _ (Some c) => Some c
     | _ => cache_file w
     end)
    (config_file w)
    (match o with
     | Finished _ a _ => a
     | Aborted _ a => a
     end)
    (http_get w) (fun _ => later).

(** [moonlight] cannot be reached, [fluidd] has one announcement. *)
Definition unreachable_world : World :=
  world None (fun u _ =>
                if String.eqb u (url "moonlight") then Raise TransportError
                else Ok (ok_response [issue "Arksine" "Release" "Notes" 7])).

(** [moonlight] has an issue with no title, [fluidd] one announcement. *)
Definition malformed_world : World :=
  world None (fun u _ =>
                if String.eqb u (url "moonlight")
                then Ok (ok_response [untitled_issue "Arksine" "Notes" 7])
                else Ok (ok_response [issue "Arksine" "Release" "Notes" 8])).

(** The fingerprints of [moonlight] when its description was [News],
    and now *)
Definition earlier_hash : string :=
  "4aeef8bfdfec269633efcdbe3cda147743bdb0ecefcfd998dd696d34905765a7".

Definition current_hash : string :=
  "77ecefdce66545e2fba8971a5bf9dabaf6f593e1fd7bd16e520d657a51a55414".

(** Both feeds answer 304; the cache holds for [moonlight] the hash of
    its earlier configuration. *)
Definition stale_cache : Cache :=
  {[ "moonlight" := {[ "etag" := "W/1"; "config_hash" := earlier_hash ]} ]}.

Definition not_modified_world : World :=
  world (Some stale_cache) (fun _ _ => Ok (status_response 304)).

(** Both feeds have one announcement and no published document. *)
Definition fresh_world : World :=
  world None (fun _ _ => Ok (ok_response [issue "Arksine" "Release" "Notes" 7])).

(** Two announcements numbered 7 *)
Definition twins : list json :=
  [issue "Arksine" "Release" "Notes" 7; issue "Arksine" "Hotfix" "Notes" 7].

(** One announcement whose title has a line break *)
Definition line_break : list json :=
  [issue "Arksine" ("A" +:+ Str.crlf +:+ "B") "Notes" 7].

(** One announcement whose title has an escape character (U+001B) *)
Definition escape : list json :=
  [issue "Arksine" ("A" +:+ String "027"%char "B") "Notes" 7].

(** Both feeds answer 200 with [issues], whatever the request holds;
    the request cache is not in use and no document is published. *)
Definition steady_world (issues : list json) : World :=
  mkWorld None false None None None
    [("moonlight", options "moonlight"); ("fluidd", options "fluidd")]
    ∅ (fun _ _ => Ok (ok_response issues)) (fun _ => now).

(** The tokens two runs in a row print on [w], or the exception that
    ends one of them *)
Definition two_runs (w : World) : result (list string * list string) :=
  match run w with
  | Finished out1 a c =>
      match run (successor w (Finished out1 a c)) with
      | Finished out2 _ _ => Ok (out1, out2)
      | Aborted e _ => Raise e
      end
  | Aborted e _ => Raise e
  end.

(** The configuration of [moonlight] with a mapping of links added, and
    the same with the links in the other order *)
Definition linked_options : json :=
  JDict [("repo_owner", JStr "Arksine");
         ("repo_name", JStr "moonlight");
         ("description", JStr "Announcements");
         ("authorized_creators", JList [JStr "Arksine"]);
         ("links", JDict [("docs", JStr "https://moonraker.readthedocs.io");
                          ("home", JStr "https://github.com/Arksine/moonlight")])].

Definition relinked_options : json :=
  JDict [("repo_owner", JStr "Arksine");
         ("repo_name", JStr "moonlight");
         ("description", JStr "Announcements");
         ("authorized_creators", JList [JStr "Arksine"]);
         ("links", JDict [("home", JStr "https://github.com/Arksine/moonlight");
                          ("docs", JStr "https://moonraker.readthedocs.io")])].

End Sample.

(** * Properties *)

#[local] Arguments String.append : simpl nomatch.

Lemma str_length_app (s t : string) :
  String.length (s +:+ t) = String.length s + String.length t.
Proof. induction s as [|c s IH]; simpl; [done | by rewrite IH]. Qed.

Lemma str_length_take (n : nat) (s : string) :
  String.length (Str.take n s) = Nat.min n (String.length s).
Proof.
  unfold Str.take. revert s.
  induction n as [|n IH]; intros [|c s]; simpl; try done.
  by rewrite IH.
Qed.

Lemma prefix_app (p s : string) :
  String.prefix p s = true ↔ ∃ r, s = p +:+ r.
Proof.
  revert s. induction p as [|a p IH]; intros s.
  - destruct s; simpl; split; eauto.
  - destruct s as [|b s]; simpl.
    + split; [done | by intros [r ?]].
    + destruct (ascii_dec a b) as [->|Hne].
      * rewrite IH. split; intros [r Hr]; exists r; congruence.
      * split; [done | intros [r Hr]; congruence].
Qed.

(** [split_head sep s] is what comes before the first occurrence of
    [sep] in [s]. *)
Lemma split_head_spec (sep s : string) :
  (s = Str.split_head sep s
   ∨ ∃ rest, s = Str.split_head sep s +:+ sep +:+ rest)
  ∧ ∀ a b, sep ≠ "" → s = a +:+ sep +:+ b →
      (String.length (Str.split_head sep s) ≤ String.length a).
Proof.
  induction s as [|c r [IH1 IH2]].
  - split; [by left | simpl; lia].
  - cbn [Str.split_head].
    destruct (String.prefix sep (String c r)) eqn:Hp.
    + split; [right | simpl; lia].
      apply prefix_app in Hp as [rest ->]. by exists rest.
    + split.
      * destruct IH1 as [IH1|[rest IH1]]; [left | right; exists rest];
          simpl; by rewrite <- IH1.
      * intros [|a0 a] b Hsep Heq; simpl in Heq |- *.
        -- assert (String.prefix sep (String c r) = true) as Hp'
             by (apply prefix_app; eauto).
           congruence.
        -- injection Heq as -> ->.
           specialize (IH2 a b Hsep eq_refl). lia.
Qed.


Lemma bind_Ok {A B} (m : result A) (f : A → result B) (b : B) :
  m ≫= f = Ok b ↔ ∃ a, m = Ok a ∧ f a = Ok b.
Proof.
  destruct m as [a|e]; simpl; split.
  - eauto.
  - by intros (a' & [= ->] & ?).
  - done.
  - by intros (a' & ? & ?).
Qed.

Lemma fmap_Ok {A B} (m : result A) (f : A → B) (b : B) :
  f <$> m = Ok b ↔ ∃ a, m = Ok a ∧ f a = b.
Proof.
  destruct m as [a|e]; simpl; split.
  - intros [= <-]. eauto.
  - by intros (a' & [= ->] & ->).
  - done.
  - by intros (a' & ? & ?).
Qed.

Section ItemFacts.
Variable rfc2822_of_iso : string → option string.

Lemma item_of_issue_Some doc issue item :
  item_of_issue rfc2822_of_iso doc issue = Ok (Some item) →
  ∃ login title link body pubDate category number,
    Py.getitem issue "user" ≫= (fun u => Py.getitem u "login") = Ok (JStr login)
    ∧ Str.lower login ∈ authorized doc
    ∧ Py.getitem issue "body" = Ok (JStr body)
    ∧ Py.getitem issue "number" ≫= Py.format = Ok number
    ∧ item = item_node title link (item_description body) pubDate category
               (Str.lower (repo doc +:+ "/issue/" +:+ number)).
Proof.
  unfold item_of_issue. intros H.
  apply bind_Ok in H as (user & Huser & H).
  apply bind_Ok in H as (ul & Hul & H).
  case_bool_decide as Hauth; [simpl in H | discriminate H].
  apply fmap_Ok in Hul as (login & Hlogin & <-).
  destruct user; try discriminate Hlogin. injection Hlogin as ->.
  apply bind_Ok in H as (title & _ & H).
  apply bind_Ok in H as (link & _ & H).
  apply bind_Ok in H as (body & Hbody & H).
  apply bind_Ok in H as (created & _ & H).
  apply bind_Ok in H as (pubDate & _ & H).
  apply bind_Ok in H as (labels & _ & H).
  apply bind_Ok in H as (category & _ & H).
  apply bind_Ok in H as (number & Hnum & H).
  injection H as <-.
  apply bind_Ok in Hbody as (jb & Hjb & Hbody).
  destruct jb; try discriminate Hbody. injection Hbody as ->.
  exists login, title, link, body, pubDate, category, number.
  by repeat split.
Qed.
End ItemFacts.

Lemma last_uid_map_snoc l x :
  last_uid_map (l ++ [x]) = <[guid_of x := x]> (last_uid_map l).
Proof. unfold last_uid_map. by rewrite foldl_app. Qed.

Lemma last_uid_map_None prev g :
  last_uid_map prev !! g = None ↔ ∀ q, q ∈ prev → guid_of q ≠ g.
Proof.
  induction prev as [|x l IH] using rev_ind.
  - split; [intros _ q Hq; by apply elem_of_nil in Hq | done].
  - rewrite last_uid_map_snoc. rewrite lookup_insert_None, IH. split.
    + intros [Hl Hx] q [Hq| ->%list_elem_of_singleton]%elem_of_app; auto.
    + intros H. split.
      * intros q Hq. apply H, elem_of_app. by left.
      * apply H, elem_of_app. right. by apply list_elem_of_singleton.
Qed.

Lemma last_uid_map_Some prev g p :
  last_uid_map prev !! g = Some p ↔ last_with_guid prev g p.
Proof.
  revert p. induction prev as [|x l IH] using rev_ind; intros p.
  - split; [done | intros (l1 & l2 & H & _)]. by destruct l1.
  - rewrite last_uid_map_snoc. rewrite lookup_insert_Some. split.
    + intros [[Hg ->] | [Hg Hl]].
      * exists l, []. repeat split; [done|]. intros q Hq. by apply elem_of_nil in Hq.
      * apply IH in Hl as (l1 & l2 & -> & Hp & Hl2).
        exists l1, (l2 ++ [x]). rewrite <- app_assoc. repeat split; [done|].
        intros q [Hq| ->%list_elem_of_singleton]%elem_of_app; auto.
    + intros (l1 & l2 & Heq & Hp & Hl2).
      destruct l2 as [|y l2 _] using rev_ind.
      * apply app_inj_tail in Heq as [-> ->]. by left.
      * rewrite app_comm_cons, app_assoc in Heq.
        apply app_inj_tail in Heq as [-> ->]. right. split.
        -- apply Hl2, elem_of_app. right. by apply list_elem_of_singleton.
        -- apply IH. exists l1, l2. repeat split; [done|].
           intros q Hq. apply Hl2, elem_of_app. by left.
Qed.

Lemma same_fields_true item last_item :
  same_fields item last_item = true ↔ fields_agree item last_item.
Proof.
  unfold same_fields, fields_agree. rewrite forallb_forall. split.
  - intros H t Ht. apply list_elem_of_In, H in Ht.
    by apply bool_decide_eq_true in Ht.
  - intros H t Ht. apply bool_decide_eq_true. symmetry.
    by apply H, list_elem_of_In.
Qed.

Lemma items_match_true m cur :
  items_match m cur = true ↔
  Forall (fun c => guid_of c ≠ "" ∧ ∃ p, m !! guid_of c = Some p ∧ fields_agree c p) cur.
Proof.
  induction cur as [|c cur IH]; simpl.
  - split; [constructor | done].
  - fold (guid_of c). rewrite Forall_cons. rewrite <- IH.
    destruct (String.eqb_spec (guid_of c) "") as [He|Hne].
    { split; [done | by intros [[? _] _]]. }
    destruct (m !! guid_of c) as [p|] eqn:Hm.
    2:{ split; [done | by intros [[_ (p & ? & _)] _]]. }
    destruct (same_fields c p) eqn:Hs.
    + apply same_fields_true in Hs. split; [|by intros [_ ?]].
      intros ->. repeat split; eauto.
    + split; [done|]. intros [[_ (p' & [= <-] & Hf)] _].
      apply same_fields_true in Hf. congruence.
Qed.

(** [equals], spelled out *)
Lemma equals_true self info :
  equals self info = true ↔
  ∃ r, fi_root info = Some r
       ∧ fi_config_hash info = Some (cfg_hash self)
       ∧ length (items_of (root self)) = length (items_of r)
       ∧ Forall (fun c => guid_of c ≠ ""
                          ∧ ∃ p, last_with_guid (items_of r) (guid_of c) p
                                 ∧ fields_agree c p)
                (items_of (root self)).
Proof.
  unfold equals. destruct (fi_root info) as [r|]; [|split; [done | by intros (? & ? & _)]].
  case_bool_decide as Hh; simpl.
  2:{ split; [done | intros (? & _ & Hc & _); congruence]. }
  fold (items_of (root self)) (items_of r).
  destruct (Nat.eqb_spec (length (items_of (root self))) (length (items_of r))) as [Hl|Hl]; simpl.
  2:{ split; [done | intros (? & [= <-] & _ & ? & _); congruence]. }
  rewrite items_match_true. split.
  - intros H. exists r. repeat split; [done..|].
    eapply Forall_impl; [exact H|]. intros c [? (p & Hp & ?)].
    split; [done|]. exists p. split; [by apply last_uid_map_Some | done].
  - intros (? & [= <-] & _ & _ & H).
    eapply Forall_impl; [exact H|]. intros c [? (p & Hp & ?)].
    split; [done|]. exists p. split; [by apply last_uid_map_Some | done].
Qed.

Lemma same_content_refl e : same_content e e.
Proof. done. Qed.

Lemma same_content_findtext e e' t :
  same_content e e' → ET.findtext e' t = ET.findtext e t.
Proof. intros (_ & _ & Hc). unfold ET.findtext, ET.find. by rewrite Hc. Qed.

Lemma same_content_guid e e' : same_content e e' → guid_of e' = guid_of e.
Proof.
  intros H. unfold guid_of, ET.findtext_default.
  by rewrite (same_content_findtext _ _ _ H).
Qed.

Lemma same_content_filter (P : Element → bool) l l' :
  (∀ e e', same_content e e' → P e' = P e) →
  Forall2 same_content l l' →
  Forall2 same_content (List.filter P l) (List.filter P l').
Proof.
  intros HP. induction 1 as [|e e' l l' He _ IH]; simpl; [constructor|].
  rewrite (HP _ _ He). destruct (P e); [by constructor | done].
Qed.

Lemma items_of_root doc :
  items_of (root doc) =
  if String.eqb (tag (channel doc)) "channel"
  then List.filter (fun c => String.eqb (tag c) "item") (children (channel doc))
  else [].
Proof.
  unfold items_of, ET.findall2, ET.findall, root. simpl.
  destruct (String.eqb (tag (channel doc)) "channel"); simpl; [|done].
  by rewrite app_nil_r.
Qed.

Lemma lower_length s : String.length (Str.lower s) = String.length s.
Proof. induction s as [|c s IH]; simpl; [done | by rewrite IH]. Qed.

Lemma issue_guid_nonempty r n : Str.lower (r +:+ "/issue/" +:+ n) ≠ "".
Proof.
  intros H. apply (f_equal String.length) in H.
  rewrite lower_length, !str_length_app in H. simpl in H. lia.
Qed.

Section BuildFacts.
Variable rfc2822_of_iso : string → option string.

Lemma add_items_loop_Ok doc ch l ch' :
  add_items_loop rfc2822_of_iso doc ch l = Ok ch' →
  ∃ os, Py.traverse (item_of_issue rfc2822_of_iso doc) l = Ok os
        ∧ ch' = mkElement (tag ch) (attrib ch) (text ch) (tail ch)
                  (children ch ++ omap id os).
Proof.
  revert ch. induction l as [|issue l IH]; intros ch H; simpl in H.
  - injection H as <-. exists []. split; [done|].
    destruct ch; simpl. by rewrite app_nil_r.
  - apply bind_Ok in H as (o & Ho & H).
    apply IH in H as (os & Hos & ->).
    exists (o :: os). simpl. rewrite Ho. simpl. rewrite Hos. simpl.
    split; [done|]. destruct o as [i|]; simpl; [|done].
    by rewrite <- app_assoc.
Qed.

Lemma dedent_last_Ok ch ch' :
  dedent_last ch = Ok ch' →
  tag ch' = tag ch ∧ Forall2 same_content (children ch) (children ch').
Proof.
  unfold dedent_last. intros H.
  destruct (List.rev (children ch)) as [|last before] eqn:Hrev; [done|].
  destruct (tail last) as [t|]; [|done]. injection H as <-. simpl.
  split; [done|].
  apply (f_equal (@List.rev _)) in Hrev. rewrite rev_involutive in Hrev.
  rewrite Hrev. simpl. apply Forall2_app.
  - apply Forall_Forall2_diag, Forall_forall. intros; apply same_content_refl.
  - by repeat constructor.
Qed.

Lemma init_Ok date_str nm options h doc :
  RssDocument_init date_str nm options h = Ok doc →
  name doc = nm ∧ cfg_hash doc = h ∧ tag (channel doc) = "channel"
  ∧ List.filter (fun c => String.eqb (tag c) "item") (children (channel doc)) = [].
Proof.
  unfold RssDocument_init. intros H.
  apply bind_Ok in H as (owner & _ & H).
  apply bind_Ok in H as (rname & _ & H).
  apply bind_Ok in H as (creators & _ & H).
  apply bind_Ok in H as (auth & _ & H).
  apply bind_Ok in H as (descr & _ & H).
  by injection H as <-.
Qed.

(** The items of a document just built: one for each issue that
    [item_of_issue] keeps, in the order of the issues. *)
Lemma build_feed_items date_str nm options h issues doc :
  build_feed rfc2822_of_iso date_str nm options h issues = Ok doc →
  ∃ doc0 l os,
    RssDocument_init date_str nm options h = Ok doc0
    ∧ Py.iter issues = Ok l
    ∧ name doc = nm ∧ cfg_hash doc = h
    ∧ repo doc = repo doc0 ∧ authorized doc = authorized doc0
    ∧ Py.traverse (item_of_issue rfc2822_of_iso doc0) l = Ok os
    ∧ Forall2 same_content (omap id os) (items_of (root doc)).
Proof.
  unfold build_feed. intros H.
  apply bind_Ok in H as (doc0 & Hinit & H).
  unfold add_items_from_issues in H.
  apply bind_Ok in H as (l & Hl & H).
  apply bind_Ok in H as (ch1 & Hloop & H).
  apply bind_Ok in H as (ch2 & Hded & H).
  injection H as <-.
  destruct (init_Ok _ _ _ _ _ Hinit) as (Hn & Hh & Htag & Hnone).
  apply add_items_loop_Ok in Hloop as (os & Hos & ->).
  apply dedent_last_Ok in Hded as [Htag2 Hch]. simpl in Htag2, Hch.
  exists doc0, l, os. repeat split; try done.
  rewrite items_of_root. simpl. rewrite Htag2, Htag. simpl.
  eapply (same_content_filter (fun c => String.eqb (tag c) "item")) in Hch.
  2:{ by intros e e' (-> & _). }
  rewrite List.filter_app, Hnone in Hch. simpl in Hch.
  replace (List.filter (λ c, String.eqb (tag c) "item") (omap id os))
    with (omap id os) in Hch; [done|].
  clear -Hos. revert os Hos. induction l as [|i l IH]; intros os Hos; simpl in Hos.
  - by injection Hos as <-.
  - apply bind_Ok in Hos as (o & Ho & Hos).
    apply bind_Ok in Hos as (os' & Hos' & Hos).
    injection Hos as <-. specialize (IH _ Hos').
    destruct o as [it|]; simpl; [|done].
    apply item_of_issue_Some in Ho as (?&?&?&?&?&?&?&_&_&_&_&->).
    simpl. by f_equal.
Qed.
End BuildFacts.

Lemma last_with_guid_NoDup prev g p :
  NoDup (guid_of <$> prev) →
  last_with_guid prev g p ↔ p ∈ prev ∧ guid_of p = g.
Proof.
  intros Hnd. split.
  - intros (l1 & l2 & -> & Hg & _). split; [|done].
    apply elem_of_app. right. by left.
  - intros [Hin Hg]. apply list_elem_of_split in Hin as (l1 & l2 & ->).
    exists l1, l2. repeat split; [done|].
    intros q Hq Hqg. rewrite fmap_app, fmap_cons in Hnd.
    apply NoDup_app in Hnd as (_ & _ & Hnd). apply NoDup_cons in Hnd as [Hnd _].
    apply Hnd. rewrite Hg, <- Hqg. by apply list_elem_of_fmap_2.
Qed.

Lemma claimed_equal_true cur info :
  claimed_equal cur info = true ↔
  ∃ r, fi_root info = Some r
       ∧ fi_config_hash info = Some (cfg_hash cur)
       ∧ length (items_of (root cur)) = length (items_of r)
       ∧ Forall (fun c => ∃ p, p ∈ items_of r ∧ guid_of p = guid_of c
                               ∧ fields_agree c p)
                (items_of (root cur)).
Proof.
  unfold claimed_equal. destruct (fi_root info) as [r|]; [|split; [done | by intros (? & ? & _)]].
  rewrite !andb_true_iff, bool_decide_eq_true, Nat.eqb_eq, forallb_forall.
  split.
  - intros [[Hh Hl] Hf]. exists r. repeat split; [done..|].
    apply Forall_forall. intros c Hc. apply list_elem_of_In, Hf in Hc.
    apply existsb_exists in Hc as (p & Hp & Hc).
    apply andb_true_iff in Hc as [Hg Hs].
    exists p. repeat split.
    + by apply list_elem_of_In.
    + by apply String.eqb_eq.
    + by apply same_fields_true.
  - intros (? & [= <-] & Hh & Hl & Hf). repeat split; [done..|].
    intros c Hc. apply list_elem_of_In in Hc.
    rewrite Forall_forall in Hf. apply Hf in Hc as (p & Hp & Hg & Hs).
    apply existsb_exists. exists p. split; [by apply list_elem_of_In|].
    apply andb_true_iff. split; [by apply String.eqb_eq | by apply same_fields_true].
Qed.

Lemma traverse_Ok {A B} (f : A → result B) l os :
  Py.traverse f l = Ok os ↔ Forall2 (fun a o => f a = Ok o) l os.
Proof.
  revert os. induction l as [|a l IH]; intros os; simpl.
  - split; [intros [= <-]; constructor | by intros ->%Forall2_nil_inv_l].
  - split.
    + intros H. apply bind_Ok in H as (o & Ho & H).
      apply bind_Ok in H as (os' & Hos & H). injection H as <-.
      constructor; [done | by apply IH].
    + intros (o & os' & Ho & Hos & ->)%Forall2_cons_inv_l.
      apply IH in Hos. rewrite Ho. simpl. by rewrite Hos.
Qed.

Section EqualsFacts.
Variable rfc2822_of_iso : string → option string.

(** Every item of a document just built comes from an issue the
    filter kept. *)
Lemma built_item_origin date_str nm options h issues doc c :
  build_feed rfc2822_of_iso date_str nm options h issues = Ok doc →
  c ∈ items_of (root doc) →
  ∃ doc0 l issue item,
    RssDocument_init date_str nm options h = Ok doc0
    ∧ Py.iter issues = Ok l ∧ issue ∈ l
    ∧ item_of_issue rfc2822_of_iso doc0 issue = Ok (Some item)
    ∧ same_content item c.
Proof.
  intros Hb Hc.
  apply build_feed_items in Hb as (doc0 & l & os & Hi & Hl & _ & _ & _ & _ & Hos & Hcur).
  apply list_elem_of_lookup in Hc as [i Hi'].
  destruct (Forall2_lookup_r _ _ _ _ _ Hcur Hi') as (x & Hx & Hxc).
  apply list_elem_of_lookup_2, list_elem_of_omap in Hx as (o & Ho & Hox).
  simpl in Hox. subst o.
  apply traverse_Ok in Hos.
  apply list_elem_of_lookup in Ho as [j Hj].
  destruct (Forall2_lookup_r _ _ _ _ _ Hos Hj) as (issue & Hissue & Hitem).
  exists doc0, l, issue, x. split_and!; try done.
  by eapply list_elem_of_lookup_2.
Qed.

Lemma built_guid_nonempty date_str nm options h issues doc c :
  build_feed rfc2822_of_iso date_str nm options h issues = Ok doc →
  c ∈ items_of (root doc) → guid_of c ≠ "".
Proof.
  intros Hb Hc.
  destruct (built_item_origin _ _ _ _ _ _ _ Hb Hc)
    as (doc0 & l & issue & item & _ & _ & _ & Hitem & Hsame).
  rewrite (same_content_guid _ _ Hsame).
  apply item_of_issue_Some in Hitem as (?&?&?&?&?&?&?&_&_&_&_&->).
  apply issue_guid_nonempty.
Qed.

(** C1, as amended.  For a document just built and any stored feed
    information, [equals] returns true exactly when a previous document
    exists, its configuration hash is the current one, the two have as
    many items, and for every current item the last previous item that
    carries its guid has the same title, link, description, pubDate and
    category.  When the previous items carry pairwise distinct guids this
    is the condition the specification words ([claimed_equal]); and then
    a previous document holding the same items in another order, each
    agreeing on the five fields, compares equal. *)
Theorem equals_built_iff date_str nm options h issues doc info :
  build_feed rfc2822_of_iso date_str nm options h issues = Ok doc →
  (equals doc info = true ↔
   ∃ r, fi_root info = Some r
        ∧ fi_config_hash info = Some (cfg_hash doc)
        ∧ length (items_of (root doc)) = length (items_of r)
        ∧ ∀ c, c ∈ items_of (root doc) →
               ∃ p, last_with_guid (items_of r) (guid_of c) p ∧ fields_agree c p)
  ∧ (∀ r, fi_root info = Some r → NoDup (guid_of <$> items_of r) →
          equals doc info = claimed_equal doc info)
  ∧ (∀ r reordered,
       fi_root info = Some r →
       fi_config_hash info = Some (cfg_hash doc) →
       NoDup (guid_of <$> items_of r) →
       items_of r ≡ₚ reordered →
       Forall2 (fun c p => guid_of p = guid_of c ∧ fields_agree c p)
               (items_of (root doc)) reordered →
       equals doc info = true).
Proof.
  intros Hb.
  assert (∀ r, fi_root info = Some r → NoDup (guid_of <$> items_of r) →
               equals doc info = claimed_equal doc info) as Hclaimed.
  { intros r Hr Hnd. apply eq_true_iff_eq.
    rewrite equals_true, claimed_equal_true.
    split; intros (r' & Hr' & Hh & Hl & Hf); exists r'; repeat split; try done;
      assert (r' = r) as -> by congruence;
      rewrite Forall_forall in Hf |- *; intros c Hc.
    - destruct (Hf c Hc) as [_ (p & Hp & Ha)].
      apply last_with_guid_NoDup in Hp as [? ?]; [|done]. by exists p.
    - destruct (Hf c Hc) as (p & Hp & Hg & Ha). split.
      + by eapply built_guid_nonempty.
      + exists p. split; [|done]. by apply last_with_guid_NoDup. }
  split_and!; [|exact Hclaimed|].
  - rewrite equals_true. split.
    + intros (r & Hr & Hh & Hl & Hf). exists r. repeat split; [done..|].
      intros c Hc. rewrite Forall_forall in Hf. by apply Hf in Hc as [_ ?].
    + intros (r & Hr & Hh & Hl & Hf). exists r. repeat split; [done..|].
      apply Forall_forall. intros c Hc. split; [|by apply Hf].
      by eapply built_guid_nonempty.
  - intros r reordered Hr Hh Hnd Hperm Hall.
    rewrite (Hclaimed r Hr Hnd). apply claimed_equal_true.
    exists r. split_and!; [done..| |].
    + rewrite Hperm. by eapply Forall2_length.
    + apply Forall_forall. intros c [i Hi]%list_elem_of_lookup.
      destruct (Forall2_lookup_l _ _ _ _ _ Hall Hi) as (p & Hp & Hg & Hf).
      exists p. split_and!; [|done..].
      rewrite Hperm. by eapply list_elem_of_lookup_2.
Qed.
End EqualsFacts.

Lemma parsed_children e : children (parsed e) = List.map parsed (children e).
Proof. by destruct e. Qed.

Lemma parsed_tag_of e : tag (parsed e) = parsed_tag (tag e).
Proof. by destruct e. Qed.

Lemma parsed_text_of e : text (parsed e) = parsed_text (text e).
Proof. by destruct e. Qed.

Lemma prefix_cr_free o s :
  cr_free s = true → String.prefix (String Str.CR o) s = false.
Proof.
  destruct s as [|c r]; [done|].
  cbn [cr_free]. intros [Hc _]%andb_true_iff.
  apply negb_true_iff, Ascii.eqb_neq in Hc.
  change (String.prefix (String Str.CR o) (String c r))
    with (if ascii_dec Str.CR c then String.prefix o r else false).
  destruct (ascii_dec Str.CR c); [congruence | done].
Qed.

Lemma replace_cr_free o new s :
  cr_free s = true → Str.replace (String Str.CR o) new s = s.
Proof.
  unfold Str.replace. induction s as [|c r IH]; [done|].
  intros H. cbn [Str.replace_from]. rewrite (prefix_cr_free o _ H).
  cbn [cr_free] in H. apply andb_true_iff in H as [_ H]. by rewrite IH.
Qed.

(** A text without carriage return is read back as written. *)
Lemma xml_newlines_cr_free s : cr_free s = true → xml_newlines s = s.
Proof.
  intros H. unfold xml_newlines, Str.crlf.
  by rewrite (replace_cr_free _ _ s H), (replace_cr_free _ _ s H).
Qed.

Lemma default_parsed_text x :
  default "" (parsed_text x) = xml_newlines (default "" x).
Proof.
  destruct x as [s|]; [|done]. simpl.
  by destruct (String.eqb_spec (xml_newlines s) "") as [->|].
Qed.

(** A tag without namespace prefix is found after parsing exactly where
    it was before writing. *)
Lemma parsed_tag_eqb t u :
  String.prefix "moonlight:" u = false → String.prefix "{" u = false →
  String.eqb (parsed_tag t) u = String.eqb t u.
Proof.
  intros Hu1 Hu2. unfold parsed_tag.
  destruct (String.prefix "moonlight:" t) eqn:Ht; [|done].
  destruct (String.eqb_spec t u) as [->|Hne]; [congruence|].
  apply String.eqb_neq. intros <-. by destruct t.
Qed.

Lemma parsed_findall e u :
  String.prefix "moonlight:" u = false → String.prefix "{" u = false →
  ET.findall (parsed e) u = List.map parsed (ET.findall e u).
Proof.
  intros Hu1 Hu2. unfold ET.findall. rewrite parsed_children.
  induction (children e) as [|c l IH]; simpl; [done|].
  rewrite parsed_tag_of, parsed_tag_eqb by done.
  destruct (String.eqb (tag c) u); simpl; by rewrite IH.
Qed.

Lemma parsed_items_of r : items_of (parsed r) = List.map parsed (items_of r).
Proof.
  unfold items_of, ET.findall2. rewrite parsed_findall by done.
  induction (ET.findall r "channel") as [|c l IH]; simpl; [done|].
  by rewrite map_app, IH, parsed_findall.
Qed.

Lemma parsed_findtext e u :
  String.prefix "moonlight:" u = false → String.prefix "{" u = false →
  ET.findtext (parsed e) u = xml_newlines <$> ET.findtext e u.
Proof.
  intros Hu1 Hu2. unfold ET.findtext, ET.find. rewrite parsed_children.
  induction (children e) as [|c l IH]; simpl; [done|].
  rewrite parsed_tag_of, parsed_tag_eqb by done.
  destruct (String.eqb (tag c) u); [|done].
  by rewrite parsed_text_of, default_parsed_text.
Qed.

Lemma parsed_guid e : guid_of (parsed e) = xml_newlines (guid_of e).
Proof.
  unfold guid_of, ET.findtext_default. rewrite parsed_findtext by done.
  by destruct (ET.findtext e "guid").
Qed.

Lemma init_channel date_str nm options h doc :
  RssDocument_init date_str nm options h = Ok doc →
  ∃ description,
    channel doc = channel_node (Str.lower (repo doc))
                    ("https://github.com/" +:+ repo doc) description date_str h.
Proof.
  unfold RssDocument_init. intros H.
  apply bind_Ok in H as (owner & _ & H).
  apply bind_Ok in H as (rname & _ & H).
  apply bind_Ok in H as (creators & _ & H).
  apply bind_Ok in H as (auth & _ & H).
  apply bind_Ok in H as (descr & _ & H).
  injection H as <-. by exists descr.
Qed.

Lemma init_same_repo d1 d2 nm options h doc1 doc2 :
  RssDocument_init d1 nm options h = Ok doc1 →
  RssDocument_init d2 nm options h = Ok doc2 →
  repo doc1 = repo doc2 ∧ authorized doc1 = authorized doc2.
Proof.
  unfold RssDocument_init. intros H1 H2.
  apply bind_Ok in H1 as (owner & Ho & H1). rewrite Ho in H2. simpl in H2.
  apply bind_Ok in H1 as (rname & Hr & H1). rewrite Hr in H2. simpl in H2.
  apply bind_Ok in H1 as (creators & Hc & H1). rewrite Hc in H2. simpl in H2.
  apply bind_Ok in H1 as (auth & Ha & H1). rewrite Ha in H2. simpl in H2.
  apply bind_Ok in H1 as (descr & Hd & H1). rewrite Hd in H2. simpl in H2.
  injection H1 as <-. by injection H2 as <-.
Qed.

Section PublishedHash.
Variable rfc2822_of_iso : string → option string.

Lemma item_of_issue_ext doc doc' issue :
  repo doc = repo doc' → authorized doc = authorized doc' →
  item_of_issue rfc2822_of_iso doc issue = item_of_issue rfc2822_of_iso doc' issue.
Proof. unfold item_of_issue. by intros -> ->. Qed.

(** The file of a document just built, if it can be read back and holds
    no carriage return, gives back the parsed tree and the fingerprint
    the document was built with. *)
Lemma built_config_hash date_str nm options h issues doc assets info :
  build_feed rfc2822_of_iso date_str nm options h issues = Ok doc →
  texts_stable (root doc) = true →
  get_feed_info (write doc assets) nm = Ok info →
  info = mkFeedInfo (Some (parsed (root doc))) (Some h).
Proof.
  unfold build_feed. intros H Hst Hinfo.
  apply bind_Ok in H as (doc0 & Hinit & H).
  unfold add_items_from_issues in H.
  apply bind_Ok in H as (l & Hl & H).
  apply bind_Ok in H as (ch1 & Hloop & H).
  apply bind_Ok in H as (ch2 & Hded & H).
  injection H as <-.
  destruct (init_Ok _ _ _ _ _ Hinit) as (Hn & Hh & Htag & Hnone).
  destruct (init_channel _ _ _ _ _ Hinit) as (descr & Hch).
  apply add_items_loop_Ok in Hloop as (os & Hos & ->).
  apply dedent_last_Ok in Hded as [Htag2 Hsame]. simpl in Htag2, Hsame.
  unfold get_feed_info, write in Hinfo. simpl in Hinfo.
  rewrite Hn, lookup_insert_eq in Hinfo.
  apply bind_Ok in Hinfo as (r & Hr & [= <-]).
  unfold etree_parse in Hr. destruct (xml_ok _); [|done]. injection Hr as <-.
  f_equal.
  rewrite Hch in Hsame, Htag2. simpl in Hsame, Htag2.
  destruct ch2 as [t a x tl ch]. simpl in *. subst t.
  repeat (apply Forall2_cons_inv_l in Hsame as (? & ? & (? & ? & ?) & Hsame & ->)).
  unfold ET.findtext2, ET.findall2, ET.findall. simpl.
  repeat match goal with e : Element |- _ => destruct e; simpl in * end.
  subst. cbn in Hst |- *.
  change (Some (default "" (parsed_text (Some (cfg_hash doc0))))
          = Some (cfg_hash doc0)).
  rewrite default_parsed_text. simpl. f_equal. apply xml_newlines_cr_free.
  rewrite !andb_true_iff in Hst. by destruct_and!.
Qed.
End PublishedHash.

Lemma traverse_ext {A B} (f g : A → result B) l :
  (∀ a, f a = g a) → Py.traverse f l = Py.traverse g l.
Proof. intros H. induction l as [|a l IH]; simpl; [done | by rewrite H, IH]. Qed.

Lemma compared_tags_plain t :
  t ∈ compared_tags →
  String.prefix "moonlight:" t = false ∧ String.prefix "{" t = false.
Proof. unfold compared_tags. intros Ht. set_unfold. by destruct_or!; subst. Qed.

Lemma item_node_fields title link d pd cat g c t :
  same_content (item_node title link d pd cat g) c →
  t ∈ compared_tags →
  ET.findtext c t = Some (ET.findtext_default c t "").
Proof.
  intros Hs Ht. unfold ET.findtext_default.
  rewrite (same_content_findtext _ _ _ Hs).
  unfold compared_tags in Ht. set_unfold. by destruct_or!; subst.
Qed.

Lemma texts_stable_children e c :
  texts_stable e = true → c ∈ children e → texts_stable c = true.
Proof.
  destruct e as [t a x tl ch]. simpl. intros [_ H]%andb_true_iff Hc.
  rewrite forallb_forall in H. by apply H, list_elem_of_In.
Qed.

Lemma findall_children e u c : c ∈ ET.findall e u → c ∈ children e.
Proof.
  unfold ET.findall. rewrite !list_elem_of_In, filter_In. by intros [? _].
Qed.

Lemma texts_stable_items r c :
  texts_stable r = true → c ∈ items_of r → texts_stable c = true.
Proof.
  unfold items_of, ET.findall2. intros Hr.
  rewrite list_elem_of_In, in_flat_map. intros (ch & Hch & Hc).
  apply list_elem_of_In, findall_children in Hch, Hc.
  eauto using texts_stable_children.
Qed.

Lemma texts_stable_findtext e u :
  texts_stable e = true → xml_newlines <$> ET.findtext e u = ET.findtext e u.
Proof.
  intros He. unfold ET.findtext, ET.find.
  destruct (List.find _ _) as [c|] eqn:Hf; [|done]. simpl. f_equal.
  apply find_some in Hf as [Hc%list_elem_of_In _].
  apply xml_newlines_cr_free.
  pose proof (texts_stable_children _ _ He Hc) as Hst.
  destruct c as [t a x tl ch]. simpl in *. by apply andb_true_iff in Hst as [? _].
Qed.

Lemma texts_stable_guid e :
  texts_stable e = true → guid_of (parsed e) = guid_of e.
Proof.
  intros He. rewrite parsed_guid. unfold guid_of, ET.findtext_default.
  rewrite <- (texts_stable_findtext e "guid" He) at 2.
  by destruct (ET.findtext e "guid").
Qed.

Section RoundTrip.
Variable rfc2822_of_iso : string → option string.

(** A document built from a configuration and a list of issues, written
    and read back, compares equal to a second document built from the
    same configuration and issues at another time, provided that the
    file is read back, that no text of the document holds a carriage
    return, and that the items built carry pairwise distinct guids (no
    two issues kept share a number). *)
Theorem stable_rebuild_equals_published
    d1 d2 nm options h issues doc1 doc2 assets info :
  build_feed rfc2822_of_iso d1 nm options h issues = Ok doc1 →
  build_feed rfc2822_of_iso d2 nm options h issues = Ok doc2 →
  NoDup (guid_of <$> items_of (root doc1)) →
  texts_stable (root doc1) = true →
  get_feed_info (write doc1 assets) nm = Ok info →
  equals doc2 info = true.
Proof.
  intros H1 H2 Hnd Hst Hinfo.
  rewrite (built_config_hash _ _ _ _ _ _ _ _ _ H1 Hst Hinfo). clear Hinfo.
  pose proof H2 as Hb2.
  apply build_feed_items in H1
    as (a1 & l1 & os1 & Hi1 & Hl1 & Hn1 & _ & _ & _ & Hos1 & Hit1).
  apply build_feed_items in H2
    as (a2 & l2 & os2 & Hi2 & Hl2 & _ & Hh2 & _ & _ & Hos2 & Hit2).
  assert (l2 = l1) as -> by congruence.
  destruct (init_same_repo _ _ _ _ _ _ _ Hi1 Hi2) as [Hrepo Hauth].
  rewrite (traverse_ext _ (item_of_issue rfc2822_of_iso a2)) in Hos1
    by (intros; by apply item_of_issue_ext).
  assert (os2 = os1) as -> by congruence.
  apply equals_true. exists (parsed (root doc1)).
  cbn [fi_root fi_config_hash].
  rewrite parsed_items_of.
  split_and!; [done | by rewrite Hh2 | |].
  - rewrite length_map.
    apply Forall2_length in Hit1, Hit2. congruence.
  - apply Forall_forall. intros c2 Hc2. split; [by eapply built_guid_nonempty|].
    apply list_elem_of_lookup in Hc2 as [i Hi].
    destruct (Forall2_lookup_r _ _ _ _ _ Hit2 Hi) as (x & Hx & Hx2).
    destruct (Forall2_lookup_l _ _ _ _ _ Hit1 Hx) as (c1 & Hc1 & Hx1).
    assert (texts_stable c1 = true) as Hc1st.
    { eapply texts_stable_items; [done|]. by eapply list_elem_of_lookup_2. }
    assert (∃ title link d pd cat g, x = item_node title link d pd cat g)
      as (title & link & d & pd & cat & g & ->).
    { apply list_elem_of_lookup_2, list_elem_of_omap in Hx as (o & Ho & Hox).
      simpl in Hox. subst o. apply traverse_Ok in Hos2.
      apply list_elem_of_lookup in Ho as [j Hj].
      destruct (Forall2_lookup_r _ _ _ _ _ Hos2 Hj) as (issue & _ & Hitem).
      apply item_of_issue_Some in Hitem as (?&?&?&?&?&?&?&_&_&_&_&->). eauto 10. }
    exists (parsed c1). split.
    + apply last_with_guid_NoDup.
      * rewrite <- list_fmap_compose.
        erewrite list_fmap_ext; [exact Hnd|]. intros j e Hj. simpl.
        apply texts_stable_guid, (texts_stable_items (root doc1)); [done|].
        by eapply list_elem_of_lookup_2.
      * split.
        -- apply list_elem_of_fmap_2. by eapply list_elem_of_lookup_2.
        -- by rewrite texts_stable_guid, (same_content_guid _ _ Hx1),
             (same_content_guid _ _ Hx2).
    + intros t Ht. destruct (compared_tags_plain t Ht) as [Hp1 Hp2].
      rewrite parsed_findtext, texts_stable_findtext by done.
      rewrite (item_node_fields _ _ _ _ _ _ _ _ Hx1 Ht).
      unfold ET.findtext_default.
      by rewrite (same_content_findtext _ _ _ Hx1), (same_content_findtext _ _ _ Hx2).
Qed.
End RoundTrip.

Lemma spec_description_length s : (String.length (spec_description s) ≤ 512).
Proof.
  unfold spec_description.
  destruct (Nat.ltb_spec 512 (String.length (Str.replace Str.crlf " " (Str.split_head Str.blank_line s)))).
  - rewrite str_length_app, str_length_take.
    change (String.length "...") with 3. lia.
  - done.
Qed.

Section DescriptionFacts.
Variable rfc2822_of_iso : string → option string.

Lemma item_of_issue_authorized doc issue login o :
  item_of_issue rfc2822_of_iso doc issue = Ok o →
  Py.getitem issue "user" ≫= (fun u => Py.getitem u "login") = Ok (JStr login) →
  Str.lower login ∈ authorized doc →
  ∃ item, o = Some item.
Proof.
  unfold item_of_issue. intros H Hu Ha. rewrite Hu in H. simpl in H.
  rewrite bool_decide_eq_true_2 in H by done. simpl in H.
  repeat (apply bind_Ok in H as (? & _ & H)). injection H as <-. eauto.
Qed.

(** C5, as amended.  An issue of an authorized creator, in a list from
    which the document is built, has an item whose description is
    derived from the body stripped of leading and trailing white space:
    what precedes the first blank line (CR LF CR LF) of the stripped
    body, with each CR LF replaced by a space; when that line is longer
    than 512 characters the description is its first 509 characters
    followed by three dots, 512 characters in all, and otherwise it is
    the line itself. *)
Theorem description_of_authorized date_str nm options h issues doc l issue login :
  build_feed rfc2822_of_iso date_str nm options h issues = Ok doc →
  Py.iter issues = Ok l → issue ∈ l →
  Py.getitem issue "user" ≫= (fun u => Py.getitem u "login") = Ok (JStr login) →
  Str.lower login ∈ authorized doc →
  ∃ body number item,
    Py.getitem issue "body" = Ok (JStr body)
    ∧ Py.getitem issue "number" ≫= Py.format = Ok number
    ∧ item ∈ items_of (root doc)
    ∧ guid_of item = Str.lower (repo doc +:+ "/issue/" +:+ number)
    ∧ ET.findtext item "description" = Some (spec_description (Str.strip body))
    ∧ let para := Str.split_head Str.blank_line (Str.strip body) in
      let line := Str.replace Str.crlf " " para in
      (Str.strip body = para ∨ ∃ rest, Str.strip body = para +:+ Str.blank_line +:+ rest)
      ∧ (∀ a b, Str.strip body = a +:+ Str.blank_line +:+ b →
                (String.length para ≤ String.length a))
      ∧ (512 < String.length line →
         spec_description (Str.strip body) = Str.take 509 line +:+ "..."
         ∧ String.length (spec_description (Str.strip body)) = 512)
      ∧ (String.length line ≤ 512 → spec_description (Str.strip body) = line).
Proof.
  intros Hb Hl Hin Hu Ha.
  apply build_feed_items in Hb
    as (doc0 & l' & os & _ & Hl' & _ & _ & Hrepo & Hauth & Hos & Hit).
  assert (l' = l) as -> by congruence.
  apply traverse_Ok in Hos.
  apply list_elem_of_lookup in Hin as [j Hj].
  destruct (Forall2_lookup_l _ _ _ _ _ Hos Hj) as (o & Ho & Hitem).
  rewrite Hauth in Ha.
  destruct (item_of_issue_authorized _ _ _ _ Hitem Hu Ha) as [x ->].
  assert (x ∈ omap id os) as Hx.
  { apply list_elem_of_omap. exists (Some x). split; [|done].
    by eapply list_elem_of_lookup_2. }
  apply list_elem_of_lookup in Hx as [i Hi].
  destruct (Forall2_lookup_l _ _ _ _ _ Hit Hi) as (c & Hc & Hxc).
  apply item_of_issue_Some in Hitem
    as (login' & title & link & body & pd & cat & number & _ & _ & Hbody & Hnum & ->).
  exists body, number, c. rewrite Hrepo. cbv zeta.
  split_and!; try done.
  - by eapply list_elem_of_lookup_2.
  - by rewrite (same_content_guid _ _ Hxc).
  - by rewrite (same_content_findtext _ _ _ Hxc).
  - apply split_head_spec.
  - intros a b. by apply split_head_spec.
  - unfold spec_description. intros Hlong.
    apply Nat.ltb_lt in Hlong as Hlt. rewrite Hlt. split; [done|].
    rewrite str_length_app, str_length_take.
  change (String.length "...") with 3. lia.
  - unfold spec_description. intros Hshort.
    by apply Nat.ltb_ge in Hshort as ->.
Qed.
End DescriptionFacts.

Section Sorting.
Context {A : Type}.
Implicit Types (x y : string * A) (l : list (string * A)).

Lemma insert_by_key_perm x l : Dict.insert_by_key x l ≡ₚ x :: l.
Proof.
  induction l as [|y l IH]; simpl; [done|].
  destruct (String.leb x.1 y.1); [done|].
  rewrite IH. apply perm_swap.
Qed.

Lemma sorted_by_key_permutation l : Dict.sorted_by_key l ≡ₚ l.
Proof.
  induction l as [|x l IH]; simpl; [done|].
  by rewrite insert_by_key_perm, IH.
Qed.

Lemma insert_by_key_sorted x l :
  Sorted key_le l → Sorted key_le (Dict.insert_by_key x l).
Proof.
  induction 1 as [|y l Hl IH Hhd]; simpl.
  - by repeat constructor.
  - destruct (String.leb x.1 y.1) eqn:Hxy.
    + constructor; [by constructor|]. constructor.
      unfold key_le, String.le. by rewrite Hxy.
    + constructor; [done|].
      assert (key_le y x) as Hyx.
      { destruct (String.le_total y.1 x.1) as [?|Hc]; [done|].
        unfold String.le in Hc. by rewrite Hxy in Hc. }
      destruct Hhd as [|z l' Hyz]; simpl; [by constructor|].
      destruct (String.leb x.1 z.1); by constructor.
Qed.

Lemma sorted_by_key_sorted l : Sorted key_le (Dict.sorted_by_key l).
Proof.
  induction l as [|x l IH]; simpl; [constructor | by apply insert_by_key_sorted].
Qed.

Lemma NoDup_keys_inj l x y :
  NoDup (l.*1) → x ∈ l → y ∈ l → x.1 = y.1 → x = y.
Proof.
  induction l as [|z l IH]; simpl; intros Hnd Hx Hy Hk.
  - by apply elem_of_nil in Hx.
  - apply NoDup_cons in Hnd as [Hz Hnd].
    apply elem_of_cons in Hx as [->|Hx], Hy as [->|Hy]; auto.
    + exfalso. apply Hz. rewrite Hk. by apply list_elem_of_fmap_2.
    + exfalso. apply Hz. rewrite <- Hk. by apply list_elem_of_fmap_2.
Qed.

#[local] Instance key_le_trans : Transitive (@key_le A).
Proof. intros x y z. unfold key_le. apply transitivity. Qed.

(** Sorting forgets the order in which the pairs were inserted. *)
Lemma sorted_by_key_perm l1 l2 :
  NoDup (l1.*1) → l1 ≡ₚ l2 → Dict.sorted_by_key l1 = Dict.sorted_by_key l2.
Proof.
  intros Hnd Hp.
  apply (Sorted_unique_strong key_le); [|apply sorted_by_key_sorted..|].
  - intros x y Hx Hy Hxy Hyx.
    apply (NoDup_keys_inj l1); [done| | |].
    + by rewrite <- (sorted_by_key_permutation l1).
    + by rewrite Hp, <- (sorted_by_key_permutation l2).
    + by apply (anti_symm String.le).
  - by rewrite !sorted_by_key_permutation.
Qed.
End Sorting.

Lemma repeat_length s n : String.length (Str.repeat s n) = n * String.length s.
Proof. induction n as [|n IH]; simpl; [done|]. by rewrite str_length_app, IH. Qed.

(** No function from the natural numbers to the numbers below a bound
    is injective. *)
Lemma no_injection_below (B : N) (g : nat → N) :
  (∀ i, (g i < B)%N) → ¬ (∀ i j, g i = g j → i = j).
Proof.
  intros Hb Hinj.
  set (l := (fun i => N.to_nat (g i)) <$> seq 0 (S (N.to_nat B))).
  assert (NoDup l) as Hnd.
  { apply NoDup_fmap_2_strong; [|apply NoDup_seq].
    intros i j _ _ Hij. apply Hinj. by apply N2Nat.inj. }
  assert (l ⊆ seq 0 (N.to_nat B)) as Hsub.
  { intros x (i & -> & _)%list_elem_of_fmap. apply elem_of_seq.
    specialize (Hb i). lia. }
  assert (length l ≤ length (seq 0 (N.to_nat B))) as Hlen.
  { apply submseteq_length, NoDup_submseteq; [done|]. intros x Hx. by apply Hsub. }
  unfold l in Hlen. rewrite length_fmap, !length_seq in Hlen. lia.
Qed.

Lemma add_bound x y : (SHA256.add x y < 2 ^ 32)%N.
Proof.
  unfold SHA256.add. change SHA256.mask with (N.ones 32).
  rewrite N.land_ones. by apply N.mod_lt.
Qed.

Lemma compress_bound hash block :
  length (SHA256.compress hash block) ≤ length hash
  ∧ Forall (fun x => (x < 2 ^ 32)%N) (SHA256.compress hash block).
Proof.
  unfold SHA256.compress. split.
  - rewrite length_map, length_combine. lia.
  - apply Forall_forall. intros x (p & -> & _)%list_elem_of_fmap. apply add_bound.
Qed.

Lemma blocks_bound fuel ws hash :
  length hash ≤ 8 → Forall (fun x => (x < 2 ^ 32)%N) hash →
  length (SHA256.blocks fuel ws hash) ≤ 8
  ∧ Forall (fun x => (x < 2 ^ 32)%N) (SHA256.blocks fuel ws hash).
Proof.
  revert ws hash. induction fuel as [|k IH]; intros ws hash Hl Hb; [done|].
  destruct ws as [|w ws]; [done|]. cbn [SHA256.blocks].
  destruct (compress_bound hash (firstn 16 (w :: ws))) as [Hl' Hb'].
  apply IH; [lia | done].
Qed.

Lemma land_shiftl_low a w :
  (w < 2 ^ 32)%N → N.land (N.shiftl a 32) w = 0%N.
Proof.
  intros Hw. apply N.bits_inj_0. intros n. rewrite N.land_spec.
  destruct (N.lt_ge_cases n 32) as [Hn|Hn].
  - by rewrite N.shiftl_spec_low.
  - rewrite (N.bits_above_log2 w n), andb_false_r; [done|].
    destruct (N.eq_dec w 0%N) as [->|Hw0]; [simpl; lia|].
    apply N.log2_lt_pow2 in Hw; lia.
Qed.

Lemma fold_bound l acc k :
  Forall (fun x => (x < 2 ^ 32)%N) l → (acc < 2 ^ (32 * N.of_nat k))%N →
  (fold_left (fun a w => N.lor (N.shiftl a 32) w) l acc
   < 2 ^ (32 * N.of_nat (k + length l)))%N.
Proof.
  revert acc k. induction l as [|w l IH]; intros acc k Hl Hacc; simpl.
  - by rewrite Nat.add_0_r.
  - apply Forall_cons in Hl as [Hw Hl].
    replace (k + S (length l)) with (S k + length l) by lia.
    apply IH; [done|].
    assert (N.lor (N.shiftl acc 32) w = acc * 2 ^ 32 + w)%N as ->.
    { rewrite <- N.shiftl_mul_pow2, <- N.lxor_lor by (by apply land_shiftl_low).
      symmetry. apply N.add_nocarry_lxor. by apply land_shiftl_low. }
    replace (32 * N.of_nat (S k))%N with (32 * N.of_nat k + 32)%N by lia.
    rewrite N.pow_add_r. nia.
Qed.

Lemma digest_bound m : (SHA256.digest m < 2 ^ 256)%N.
Proof.
  unfold SHA256.digest, SHA256.digest_bytes. cbv zeta.
  set (ws := SHA256.words _).
  destruct (blocks_bound (length ws) ws SHA256.initial_hash) as [Hl Hb].
  - done.
  - unfold SHA256.initial_hash. repeat (constructor; [done|]). constructor.
  - eapply N.lt_le_trans.
    + apply (fold_bound _ 0 0 Hb). simpl. lia.
    + apply N.pow_le_mono_r; [done|]. lia.
Qed.

Section HashFacts.
Variable sha256 : string → N.
Variable json_dumps : json → string.

(** C6, as amended.  Two configuration mappings that list the same
    pairs, with pairwise distinct keys, in different orders, have the
    same fingerprint under every name, whatever the digest function and
    the serialization: [hash_config] is a function of the name and of
    the pairs sorted by key.  The values are the same in both mappings
    as they are written, a mapping nested in a value listing its keys in
    the same order. *)
Theorem hash_config_order_independent nm d1 d2 :
  NoDup (d1.*1) → d1 ≡ₚ d2 →
  hash_config sha256 json_dumps nm (JDict d1)
  = hash_config sha256 json_dumps nm (JDict d2).
Proof.
  intros Hnd Hp. unfold hash_config.
  by rewrite (sorted_by_key_perm d1 d2).
Qed.
End HashFacts.

(** There are more names than digests: some change of the name leaves
    the fingerprint of the empty configuration as it is. *)
Lemma names_collide :
  ¬ ∀ n1 n2, n1 ≠ n2 → fingerprint n1 (JDict []) ≠ fingerprint n2 (JDict []).
Proof.
  intros Hinj.
  apply (no_injection_below (2 ^ 256)
           (fun i => SHA256.digest (Str.repeat "a" i +:+ Json.dumps (JDict [])))).
  - intros i. apply digest_bound.
  - intros i j Hij.
    destruct (decide (i = j)) as [|Hne]; [done|]. exfalso.
    apply (Hinj (Str.repeat "a" i) (Str.repeat "a" j)).
    + intros Heq. apply (f_equal String.length) in Heq.
      rewrite !repeat_length in Heq. simpl in Heq. lia.
    + unfold fingerprint, hash_config.
      change (Dict.of_items (Dict.sorted_by_key []))
        with (@nil (string * json)).
      cbn beta in Hij. by rewrite Hij.
Qed.

Lemma existsb_ext_in {A} (f g : A → bool) (l : list A) :
  (∀ x, x ∈ l → f x = g x) → existsb f l = existsb g l.
Proof.
  induction l as [|x l IH]; simpl; intros H; [done|].
  rewrite (H x) by (by left). f_equal. apply IH. intros y Hy. apply H. by right.
Qed.

Section MainFacts.
Variable rfc2822_of_iso : string → option string.
Variable sha256 : string → N.
Variable json_dumps : json → string.
Variable w : World.

Abbreviation feed_step := (feed_step rfc2822_of_iso sha256 json_dumps w).
Abbreviation run_feeds := (run_feeds rfc2822_of_iso sha256 json_dumps w).
Abbreviation main := (main rfc2822_of_iso sha256 json_dumps w).
Abbreviation feed_changed := (feed_changed rfc2822_of_iso sha256 json_dumps w).
Abbreviation feed_document := (feed_document rfc2822_of_iso w).
Abbreviation hash_config := (hash_config sha256 json_dumps).

Lemma run_feeds_app l1 l2 st :
  run_feeds (l1 ++ l2) st =
  match run_feeds l1 st with
  | LoopDone st' => run_feeds l2 st'
  | LoopRaised e st' => LoopRaised e st'
  end.
Proof.
  revert st. induction l1 as [|f l1 IH]; intros st; simpl; [done|].
  destruct (feed_step st f); [apply IH | done].
Qed.

(** An exception in the turn of one feed is the end of the run. *)
Lemma main_aborts before feed after st e :
  config_file w = before ++ feed :: after →
  run_feeds before (initial_state w) = LoopDone st →
  feed_step st feed = Raise e →
  main = Aborted e (assets st).
Proof.
  intros Hc Hb He. unfold main.
  rewrite Hc, run_feeds_app, Hb. simpl. by rewrite He.
Qed.

Lemma feed_document_Ok n o h resp doc :
  feed_document n o h resp = Ok doc ↔
  ∃ issues, resp_json resp = Ok issues
            ∧ build_feed rfc2822_of_iso (clock w n) n o h issues = Ok doc.
Proof.
  unfold feed_document, build_feed.
  destruct (RssDocument_init (clock w n) n o h) as [doc0|e]; simpl.
  - destruct (resp_json resp) as [issues|e]; simpl.
    + split; [eauto | by intros (? & [= <-] & ?)].
    + split; [done | by intros (? & ? & _)].
  - split; [done | by intros (? & _ & ?)].
Qed.

Lemma feed_document_name n o h resp doc :
  feed_document n o h resp = Ok doc → name doc = n.
Proof.
  intros (issues & _ & Hb)%feed_document_Ok.
  by apply build_feed_items in Hb as (? & ? & ? & _ & _ & ? & _).
Qed.

(** What a turn that returns has done. *)
Lemma feed_step_Ok st n o st' :
  feed_step st (n, o) = Ok st' →
  ∃ h info resp entry,
    hash_config n o = Ok h
    ∧ get_feed_info (assets st) n = Ok info
    ∧ fetch w (n, o) = Ok resp
    ∧ new_cache st' = <[n := entry]> (new_cache st)
    ∧ entry !! "config_hash" = Some h
    ∧ (status_code resp ≠ 200%Z →
       entry = <["config_hash" := h]> (default ∅ (cache w !! n)))
    ∧ need_commit st' = need_commit st || feed_changed (assets st) (n, o)
    ∧ (∀ m, m ≠ n → assets st' !! m = assets st !! m)
    ∧ (feed_changed (assets st) (n, o) = false → assets st' = assets st).
Proof.
  unfold feed_step, feed_changed. intros H. simpl.
  apply bind_Ok in H as (h & Hh & H). rewrite Hh.
  apply bind_Ok in H as (info & Hi & H). rewrite Hi.
  apply bind_Ok in H as (resp & Hr & H). rewrite Hr.
  exists h, info, resp.
  destruct (Z.eqb_spec (status_code resp) 304) as [E304|N304].
  { injection H as <-. simpl.
    destruct (Z.eqb_spec (status_code resp) 200) as [E200|N200]; [lia|].
    eexists. split_and!; try done.
    - apply lookup_insert_eq.
    - by rewrite orb_false_r. }
  destruct (Z.eqb_spec (status_code resp) 200) as [E200|N200]; simpl in H.
  2:{ injection H as <-. simpl. eexists. split_and!; try done.
      - apply lookup_insert_eq.
      - by rewrite orb_false_r. }
  apply bind_Ok in H as (doc & Hd & H). rewrite Hd.
  assert (∀ e : gmap string string,
            e = match resp_headers resp !! "etag" with
                | Some t => <["etag" := t]> (<["config_hash" := h]> (default ∅ (cache w !! n)))
                | None => <["config_hash" := h]> (default ∅ (cache w !! n))
                end → e !! "config_hash" = Some h) as He.
  { intros e ->. destruct (resp_headers resp !! "etag").
    - rewrite lookup_insert_ne by done. apply lookup_insert_eq.
    - apply lookup_insert_eq. }
  destruct (negb (equals doc info) || force w) eqn:Hch;
    injection H as <-; simpl; eexists; split_and!; try done; eauto.
  - by rewrite orb_true_r.
  - intros m Hm. unfold write.
    apply feed_document_name in Hd. rewrite Hd. by rewrite lookup_insert_ne.
  - by rewrite orb_false_r.
Qed.

Lemma get_feed_info_ext (a a' : Assets) n :
  a !! n = a' !! n → get_feed_info a n = get_feed_info a' n.
Proof. intros H. unfold get_feed_info. by rewrite H. Qed.

Lemma feed_changed_ext a a' feed :
  a !! feed.1 = a' !! feed.1 → feed_changed a feed = feed_changed a' feed.
Proof.
  intros H. unfold feed_changed, get_feed_info. by rewrite H.
Qed.

Lemma feed_changed_true a n o :
  feed_changed a (n, o) = true ↔
  ∃ h info resp doc,
    hash_config n o = Ok h ∧ get_feed_info a n = Ok info
    ∧ fetch w (n, o) = Ok resp
    ∧ status_code resp = 200%Z
    ∧ feed_document n o h resp = Ok doc
    ∧ (equals doc info = false ∨ force w = true).
Proof.
  unfold feed_changed. simpl.
  destruct (hash_config n o) as [h|e]; [|split; [done | by intros (?&?&?&?&?&_)]].
  destruct (get_feed_info a n) as [info|e];
    [|split; [done | by intros (?&?&?&?&_&?&_)]].
  destruct (fetch w (n, o)) as [resp|e];
    [|split; [done | by intros (?&?&?&?&_&_&?&_)]].
  destruct (Z.eqb_spec (status_code resp) 200) as [E|N].
  2:{ split; [done | intros (?&?&?&?&_&_&[= <-]&?&_); lia]. }
  destruct (feed_document n o h resp) as [doc|e] eqn:Hd.
  2:{ split; [done | intros (?&?&?&?&[= <-]&_&[= <-]&_&?&_); congruence]. }
  rewrite orb_true_iff, negb_true_iff. split.
  - intros H. exists h, info, resp, doc. by split_and!.
  - intros (?&?&?&?&[= <-]&[= <-]&[= <-]&_&?&H). congruence.
Qed.

(** What a loop that comes to its end has done. *)
Lemma run_feeds_Done feeds st st' :
  NoDup (feeds.*1) →
  run_feeds feeds st = LoopDone st' →
  need_commit st' = need_commit st || existsb (feed_changed (assets st)) feeds
  ∧ dom (new_cache st') = dom (new_cache st) ∪ list_to_set (feeds.*1)
  ∧ (∀ n o, (n, o) ∈ feeds →
       ∃ h info resp entry,
         hash_config n o = Ok h
         ∧ get_feed_info (assets st) n = Ok info
         ∧ fetch w (n, o) = Ok resp
         ∧ new_cache st' !! n = Some entry
         ∧ entry !! "config_hash" = Some h
         ∧ (status_code resp ≠ 200%Z →
            entry = <["config_hash" := h]> (default ∅ (cache w !! n))))
  ∧ (∀ m, m ∉ feeds.*1 →
       assets st' !! m = assets st !! m
       ∧ new_cache st' !! m = new_cache st !! m).
Proof.
  revert st. induction feeds as [|[n o] feeds IH]; intros st Hnd H.
  - injection H as <-. simpl. split_and!.
    + by rewrite orb_false_r.
    + set_solver.
    + intros n o Hin. by apply elem_of_nil in Hin.
    + by intros m _.
  - cbn [run_feeds] in H.
    destruct (feed_step st (n, o)) as [st1|e] eqn:Hstep; [|done].
    rewrite fmap_cons in Hnd. apply NoDup_cons in Hnd as [Hn Hnd].
    destruct (IH st1 Hnd H) as (Hc & Hdom & Hent & Hother).
    apply feed_step_Ok in Hstep
      as (h & info & resp & entry & Hh & Hi & Hr & Hnc & He & Hne & Hc1 & Ha1 & _).
    split_and!.
    + rewrite Hc, Hc1. simpl. rewrite <- orb_assoc. f_equal. f_equal.
      apply existsb_ext_in. intros [m o'] Hm.
      apply feed_changed_ext, Ha1. simpl. intros ->.
      apply Hn. by apply (list_elem_of_fmap_2 fst) in Hm.
    + rewrite Hdom, Hnc, dom_insert_L. simpl. set_solver.
    + intros m o' [[= -> ->]|Hin]%elem_of_cons.
      * exists h, info, resp, entry. split_and!; try done.
        destruct (Hother n Hn) as [_ ->]. rewrite Hnc. apply lookup_insert_eq.
      * destruct (Hent m o' Hin) as (h' & info' & resp' & entry' & Hh' & Hi' & Hrest).
        exists h', info', resp', entry'. split; [done|]. split; [|done].
        rewrite <- Hi'. apply get_feed_info_ext. symmetry. apply Ha1.
        intros ->. apply Hn. by apply (list_elem_of_fmap_2 fst) in Hin.
    + intros m Hm. rewrite fmap_cons in Hm. apply not_elem_of_cons in Hm as [Hmn Hm].
      destruct (Hother m Hm) as [-> ->]. split; [by apply Ha1|].
      rewrite Hnc. by rewrite lookup_insert_ne.
Qed.

(** C7.  A run that returns prints exactly one token, [commit] or
    [skip]; it prints [commit] exactly when some configured feed was
    fetched with status 200 and the document built from the response
    compares unequal to the document published for that feed before the
    run, or the update is forced. *)
Theorem commit_iff_some_feed_changed out a cw :
  NoDup ((config_file w).*1) →
  main = Finished out a cw →
  ∃ tok, out = [tok] ∧ (tok = "commit" ∨ tok = "skip")
    ∧ (tok = "commit" ↔
       ∃ n o h info resp doc,
         (n, o) ∈ config_file w
         ∧ hash_config n o = Ok h
         ∧ get_feed_info (asset_files w) n = Ok info
         ∧ fetch w (n, o) = Ok resp
         ∧ status_code resp = 200%Z
         ∧ feed_document n o h resp = Ok doc
         ∧ (equals doc info = false ∨ force w = true)).
Proof.
  intros Hnd H. unfold main in H.
  destruct (run_feeds (config_file w) _) as [st|e st] eqn:Hrun; [|done].
  injection H as <- _ _.
  apply run_feeds_Done in Hrun as (Hc & _); [|done]. simpl in Hc.
  eexists. split; [done|]. rewrite Hc.
  destruct (existsb _ _) eqn:Hex.
  - split; [by left|]. split; [intros _|done].
    apply existsb_exists in Hex as ([n o] & Hin & Hch).
    apply feed_changed_true in Hch as (h & info & resp & doc & ?).
    exists n, o, h, info, resp, doc. split; [by apply list_elem_of_In | done].
  - split; [by right|]. split; [done|].
    intros (n & o & h & info & resp & doc & Hin & Hrest). exfalso.
    assert (existsb (feed_changed (asset_files w)) (config_file w) = true) as Ht.
    { apply existsb_exists. exists (n, o). split; [by apply list_elem_of_In|].
      apply feed_changed_true. by exists h, info, resp, doc. }
    congruence.
Qed.

(** C10.  When a run writes the request cache, the keys of what it
    writes are the names of the configured feeds, and the entry of each
    configured feed holds under [config_hash] the fingerprint of its
    current configuration, whatever its fetch returned. *)
Theorem persisted_cache_keys out a c :
  NoDup ((config_file w).*1) →
  main = Finished out a (Some c) →
  dom c = list_to_set ((config_file w).*1)
  ∧ ∀ n o, (n, o) ∈ config_file w →
      ∃ h entry, hash_config n o = Ok h ∧ c !! n = Some entry
                 ∧ entry !! "config_hash" = Some h.
Proof.
  intros Hnd H. unfold main in H.
  destruct (run_feeds (config_file w) _) as [st|e st] eqn:Hrun; [|done].
  apply run_feeds_Done in Hrun as (_ & Hdom & Hent & _); [|done]. simpl in Hdom.
  injection H as _ _ H.
  destruct (bool_decide _ && _); [|done]. injection H as <-.
  split.
  - rewrite Hdom. set_solver.
  - intros n o Hin.
    destruct (Hent n o Hin) as (h & info & resp & entry & ? & _ & _ & ? & ? & _).
    by exists h, entry.
Qed.

(** C4, as amended.  When a run writes the request cache, the entry
    written for a feed whose response had another status than 200 (not
    modified, or an error) is the entry loaded for it, or the empty one,
    with [config_hash] set to the fingerprint of the current
    configuration: the conditional token and every other key are as
    loaded, the stored hash is the current one. *)
Theorem unfetched_entry_keeps_token out a c n o resp :
  NoDup ((config_file w).*1) →
  main = Finished out a (Some c) →
  (n, o) ∈ config_file w →
  fetch w (n, o) = Ok resp →
  status_code resp ≠ 200%Z →
  ∃ h, hash_config n o = Ok h
       ∧ c !! n = Some (<["config_hash" := h]> (default ∅ (cache w !! n)))
       ∧ ∀ k, k ≠ "config_hash" →
              (c !! n) ≫= (.!! k) = (cache w !! n) ≫= (.!! k).
Proof.
  intros Hnd H Hin Hr Hs. unfold main in H.
  destruct (run_feeds (config_file w) _) as [st|e st] eqn:Hrun; [|done].
  apply run_feeds_Done in Hrun as (_ & _ & Hent & _); [|done].
  injection H as _ _ H.
  destruct (bool_decide _ && _); [|done]. injection H as <-.
  destruct (Hent n o Hin) as (h & info & resp' & entry & Hh & _ & Hr' & Hl & _ & He).
  assert (resp' = resp) as -> by congruence.
  exists h. rewrite Hl, (He Hs). split_and!; [done..|].
  intros k Hk. simpl. rewrite lookup_insert_ne by done.
  destruct (cache w !! n); simpl; [done | by rewrite lookup_empty].
Qed.
End MainFacts.

(** C9.  When an item of the current document has no guid, or an empty
    one, [equals] returns false whatever the stored feed information
    holds. *)
Theorem empty_guid_never_equal doc info :
  existsb (fun c => String.eqb (guid_of c) "") (items_of (root doc)) = true →
  equals doc info = false.
Proof.
  intros (c & Hc & Hg)%existsb_exists. apply String.eqb_eq in Hg.
  apply not_true_is_false. intros (r & _ & _ & _ & Hf)%equals_true.
  rewrite Forall_forall in Hf. apply list_elem_of_In in Hc.
  by destruct (Hf c Hc) as [? _].
Qed.

Section AbortFacts.
Variable rfc2822_of_iso : string → option string.
Variable sha256 : string → N.
Variable json_dumps : json → string.
Variable w : World.

Abbreviation feed_step := (feed_step rfc2822_of_iso sha256 json_dumps w).
Abbreviation run_feeds := (run_feeds rfc2822_of_iso sha256 json_dumps w).
Abbreviation main := (main rfc2822_of_iso sha256 json_dumps w).
Abbreviation feed_document := (feed_document rfc2822_of_iso w).
Abbreviation hash_config := (hash_config sha256 json_dumps).
Abbreviation item_of_issue := (item_of_issue rfc2822_of_iso).

Lemma item_of_issue_keys doc issue item k :
  item_of_issue doc issue = Ok (Some item) →
  k ∈ item_keys → ∃ v, Py.getitem issue k = Ok v.
Proof.
  unfold item_of_issue. intros H Hk.
  apply bind_Ok in H as (user & _ & H).
  apply bind_Ok in H as (ul & _ & H).
  case_bool_decide; [simpl in H | discriminate H].
  apply bind_Ok in H as (? & (? & Ht & _)%bind_Ok & H).
  apply bind_Ok in H as (? & (? & Hl & _)%bind_Ok & H).
  apply bind_Ok in H as (? & (? & Hb & _)%bind_Ok & H).
  apply bind_Ok in H as (? & (? & Hc & _)%bind_Ok & H).
  apply bind_Ok in H as (? & _ & H).
  apply bind_Ok in H as (? & (? & Hlb & _)%bind_Ok & H).
  apply bind_Ok in H as (? & _ & H).
  apply bind_Ok in H as (? & (? & Hn & _)%bind_Ok & H).
  unfold item_keys in Hk. set_unfold. destruct_or!; subst; eauto.
Qed.

(** An issue of an authorized creator that lacks one of the fields
    read makes its turn of the loop raise. *)
Lemma item_of_issue_missing doc issue login k :
  Py.getitem issue "user" ≫= (fun u => Py.getitem u "login") = Ok (JStr login) →
  Str.lower login ∈ authorized doc →
  k ∈ item_keys → Py.getitem issue k = Raise (KeyError k) →
  ∃ e, item_of_issue doc issue = Raise e.
Proof.
  intros Hu Ha Hk Hmiss.
  destruct (item_of_issue doc issue) as [o|e] eqn:H; [exfalso | eauto].
  destruct (item_of_issue_authorized _ _ _ _ _ H Hu Ha) as [item ->].
  destruct (item_of_issue_keys _ _ _ _ H Hk) as [v Hv]. congruence.
Qed.

Lemma add_items_raises doc issues l issue e :
  Py.iter issues = Ok l → issue ∈ l →
  item_of_issue doc issue = Raise e →
  ∃ e', add_items_from_issues rfc2822_of_iso doc issues = Raise e'.
Proof.
  intros Hl Hin He. unfold add_items_from_issues. rewrite Hl. simpl.
  destruct (add_items_loop rfc2822_of_iso doc (channel doc) l) as [ch|e'] eqn:H;
    [exfalso | simpl; eauto].
  apply add_items_loop_Ok in H as (os & Hos%traverse_Ok & _).
  apply list_elem_of_lookup in Hin as [j Hj].
  destruct (Forall2_lookup_l _ _ _ _ _ Hos Hj) as (o & _ & Ho). congruence.
Qed.

Lemma feed_step_non_200 st n o h info resp :
  hash_config n o = Ok h → get_feed_info (assets st) n = Ok info →
  fetch w (n, o) = Ok resp →
  status_code resp ≠ 200%Z →
  feed_step st (n, o) =
  Ok (mkRunState
        (<[n := <["config_hash" := h]> (default ∅ (cache w !! n))]> (new_cache st))
        (need_commit st) (assets st)).
Proof.
  intros Hh Hi Hr Hs. unfold feed_step.
  rewrite Hh. simpl. rewrite Hi. simpl. rewrite Hr. simpl.
  destruct (Z.eqb_spec (status_code resp) 304); [done|].
  by destruct (Z.eqb_spec (status_code resp) 200).
Qed.

Lemma feed_step_fetch_raises st n o h info e :
  hash_config n o = Ok h → get_feed_info (assets st) n = Ok info →
  fetch w (n, o) = Raise e →
  feed_step st (n, o) = Raise e.
Proof.
  intros Hh Hi Hr. unfold feed_step.
  rewrite Hh. simpl. rewrite Hi. simpl. by rewrite Hr.
Qed.

(** A published file that cannot be read ends the turn before the
    request is made. *)
Lemma feed_step_parse_raises st n o h e :
  hash_config n o = Ok h → get_feed_info (assets st) n = Raise e →
  feed_step st (n, o) = Raise e.
Proof.
  intros Hh Hi. unfold feed_step. rewrite Hh. simpl. by rewrite Hi.
Qed.

Lemma feed_step_document_raises st n o h info resp e :
  hash_config n o = Ok h → get_feed_info (assets st) n = Ok info →
  fetch w (n, o) = Ok resp →
  status_code resp = 200%Z →
  feed_document n o h resp = Raise e →
  feed_step st (n, o) = Raise e.
Proof.
  intros Hh Hi Hr Hs Hd. unfold feed_step.
  rewrite Hh. simpl. rewrite Hi. simpl. rewrite Hr. simpl. rewrite Hs. simpl.
  by rewrite Hd.
Qed.

(** C3, as amended.  At the turn of a feed whose fingerprint is
    computed and whose published file, if there is one, is read, so that
    the request is made: a response with another status than 200 ends
    the turn with the files and the change flag as they were, and the
    loop goes on with the next feed; an exception raised by the request
    is not caught, and ends the run, with the files as they were before
    the turn, nothing printed and no cache written. *)
Theorem fetch_failure_policy before n o after st h info :
  config_file w = before ++ (n, o) :: after →
  run_feeds before (initial_state w) = LoopDone st →
  hash_config n o = Ok h →
  get_feed_info (assets st) n = Ok info →
  (∀ resp, fetch w (n, o) = Ok resp → status_code resp ≠ 200%Z →
     ∃ st', feed_step st (n, o) = Ok st'
            ∧ assets st' = assets st ∧ need_commit st' = need_commit st
            ∧ run_feeds (config_file w) (initial_state w) = run_feeds after st')
  ∧ (∀ e, fetch w (n, o) = Raise e → main = Aborted e (assets st)).
Proof.
  intros Hc Hb Hh Hi. split.
  - intros resp Hr Hs. eexists. split; [by eapply feed_step_non_200|].
    split_and!; [done..|].
    rewrite Hc, run_feeds_app, Hb. cbn [run_feeds].
    by erewrite feed_step_non_200.
  - intros e Hr. eapply main_aborts; [done..|].
    by eapply feed_step_fetch_raises.
Qed.

(** C8, as amended.  When the issues fetched for a feed (its published
    file, if there is one, having been read) hold an issue of an
    authorized creator that lacks one of the fields read, building the
    document raises; the exception is not caught and ends the run: the
    document published for that feed is the one found at the start, no
    cache is written, and the feeds after it are not processed. *)
Theorem malformed_issue_aborts
    before n o after st h info resp doc0 issues l issue login k :
  NoDup ((config_file w).*1) →
  config_file w = before ++ (n, o) :: after →
  run_feeds before (initial_state w) = LoopDone st →
  hash_config n o = Ok h →
  get_feed_info (asset_files w) n = Ok info →
  fetch w (n, o) = Ok resp → status_code resp = 200%Z →
  RssDocument_init (clock w n) n o h = Ok doc0 →
  resp_json resp = Ok issues → Py.iter issues = Ok l → issue ∈ l →
  Py.getitem issue "user" ≫= (fun u => Py.getitem u "login") = Ok (JStr login) →
  Str.lower login ∈ authorized doc0 →
  k ∈ item_keys → Py.getitem issue k = Raise (KeyError k) →
  ∃ e, feed_document n o h resp = Raise e
       ∧ main = Aborted e (assets st)
       ∧ assets st !! n = asset_files w !! n.
Proof.
  intros Hnd Hc Hb Hh Hinfo Hr Hs Hi Hj Hl Hin Hu Ha Hk Hmiss.
  destruct (item_of_issue_missing _ _ _ _ Hu Ha Hk Hmiss) as [e He].
  destruct (add_items_raises _ _ _ _ _ Hl Hin He) as [e' He'].
  exists e'.
  assert (feed_document n o h resp = Raise e') as Hd.
  { unfold feed_document. rewrite Hi. simpl. rewrite Hj. simpl. exact He'. }
  assert (assets st !! n = asset_files w !! n) as Hsame.
  { rewrite Hc, fmap_app, fmap_cons in Hnd.
    apply NoDup_app in Hnd as (Hnb & Hn & _).
    pose proof Hb as Hb'.
    apply run_feeds_Done in Hb' as (_ & _ & _ & Ho); [|done].
    apply Ho. intros Hin'. apply (Hn _ Hin'). by left. }
  split_and!; [done | | done].
  eapply main_aborts; [done..|].
  eapply feed_step_document_raises; [done | | done..].
  rewrite <- Hinfo. by apply get_feed_info_ext.
Qed.
End AbortFacts.

(** ** The statements on the sample data *)

(** C1 as stated fails when two previous items share a guid: the issue
    7 listed twice compares unequal to a published document whose two
    items both carry the guid of issue 7, the first with the same
    fields, the second with another title, although each current item
    finds its guid among the previous items with equal fields. *)
Lemma equals_is_not_claimed_equal :
  match Sample.build Sample.now [Sample.issue "Arksine" "Release" "Notes" 7;
                      Sample.issue "Arksine" "Release" "Notes" 7],
        Sample.build Sample.now Sample.twins with
  | Ok cur, Ok old =>
      match get_feed_info (write old ∅) "moonlight" with
      | Ok info => equals cur info = false ∧ claimed_equal cur info = true
      | Raise _ => False
      end
  | _, _ => False
  end.
Proof. vm_compute. by split. Qed.

(** C2.  The code does not keep what the claim and the comment of
    [main] (lines 204-206: a current file whose contents are the same is
    not modified) say.  A document built from two issues numbered 7
    compares unequal to the file written from a first build of the same
    issues; so does a document built from an issue whose title holds a
    line break, which is written as it is and read back as a line feed;
    and the file written from an issue whose title holds an escape
    character is not read back at all.  Two runs in a row on the same
    answer rewrite the files and print [commit] both times, or the
    second run ends with the parser's exception; a plain issue is
    published once. *)
Theorem rebuilt_differs_from_published :
  let compared issues :=
    doc1 ← Sample.build Sample.now issues;
    doc2 ← Sample.build Sample.later issues;
    info ← get_feed_info (write doc1 ∅) "moonlight";
    Ok (equals doc2 info) in
  compared Sample.twins = Ok false
  ∧ compared Sample.line_break = Ok false
  ∧ compared Sample.escape = Raise ParseError
  ∧ compared [Sample.issue "Arksine" "Release" "Notes" 7] = Ok true
  ∧ Sample.two_runs (Sample.steady_world Sample.twins)
    = Ok (["commit"], ["commit"])
  ∧ Sample.two_runs (Sample.steady_world Sample.line_break)
    = Ok (["commit"], ["commit"])
  ∧ Sample.two_runs (Sample.steady_world Sample.escape) = Raise ParseError
  ∧ Sample.two_runs (Sample.steady_world [Sample.issue "Arksine" "Release" "Notes" 7])
    = Ok (["commit"], ["skip"]).
Proof. vm_compute. by split_and!. Qed.

(** C5 as stated fails on a body that ends with a line break: the
    description built is the stripped text, where the first paragraph of
    the body with its line break collapsed ends with a space. *)
Lemma description_is_stripped :
  let body := "New release." +:+ Str.crlf in
  match Sample.build Sample.now [Sample.issue "Arksine" "Release" body 7] with
  | Ok doc =>
      (fun item => ET.findtext item "description") <$> items_of (root doc)
      = [Some "New release."]
      ∧ spec_description body = "New release. "
  | Raise _ => False
  end.
Proof. vm_compute. by split. Qed.

(** C3 as stated fails: the request of the first feed raises, and the
    run ends there, with no token and the second feed, whose document
    would have been written, not processed. *)
Lemma transport_failure_ends_run :
  Sample.run Sample.unreachable_world = Aborted TransportError ∅.
Proof. by vm_compute. Qed.

(** C8 as stated fails: an issue with no title in the first feed ends
    the run, with no token and the second feed not processed. *)
Lemma malformed_issue_ends_run :
  Sample.run Sample.malformed_world = Aborted (KeyError "title") ∅.
Proof. by vm_compute. Qed.

(** C4 as stated fails: the entry written for a feed that answered 304
    keeps its token and has a new [config_hash]. *)
Lemma not_modified_entry_rewritten :
  match Sample.run Sample.not_modified_world with
  | Finished _ _ (Some c) =>
      Sample.stale_cache !! "moonlight"
      = Some {[ "etag" := "W/1"; "config_hash" := Sample.earlier_hash ]}
      ∧ c !! "moonlight"
        = Some {[ "etag" := "W/1"; "config_hash" := Sample.current_hash ]}
      ∧ c !! "moonlight" ≠ Sample.stale_cache !! "moonlight"
  | _ => False
  end.
Proof.
  destruct (Sample.run Sample.not_modified_world) as [out a [c|]|e a] eqn:Hrun;
    [|by vm_compute in Hrun..].
  assert (c !! "moonlight"
          = Some {[ "etag" := "W/1"; "config_hash" := Sample.current_hash ]}) as Hc.
  { vm_compute in Hrun. injection Hrun as _ _ <-. vm_compute. reflexivity. }
  split_and!; [reflexivity | done |].
  rewrite Hc. intros H.
  apply (f_equal (fun e : option (gmap string string) =>
                    e ≫= (.!! "config_hash"))) in H.
  vm_compute in H. discriminate H.
Qed.

(** C6 as stated fails.  Two configurations that are equal as mappings,
    the second listing the keys of its nested mapping in the other
    order, have different fingerprints: only the keys of the mapping
    itself are sorted (line 142), and [json.dumps] writes a nested
    mapping in its own order.  And not every change of the name changes
    the digest. *)
Lemma nested_order_changes_digest :
  Py.eq Sample.linked_options Sample.relinked_options = true
  ∧ fingerprint "moonlight" Sample.linked_options
    = Ok "34eb112d2b1e09080bd6b0e68c20d432dcdc9d120e7dd04d213fba10996a5aaa"
  ∧ fingerprint "moonlight" Sample.relinked_options
    = Ok "b6bcd68a3dfe528f7447ead465180065e7bb7859108a1bcac54b90cb3c835820"
  ∧ ¬ (∀ n1 n2 options,
         n1 ≠ n2 → fingerprint n1 options ≠ fingerprint n2 options).
Proof.
  split_and!; [by vm_compute..|].
  intros H. apply names_collide. intros n1 n2. apply H.
Qed.

Lemma equals_built_iff_witness :
  ∃ doc info,
    Sample.build Sample.now [Sample.issue "Arksine" "Release" "Notes" 7;
                             Sample.issue "Arksine" "Hotfix" "Notes" 8] = Ok doc
    ∧ get_feed_info (write doc ∅) "moonlight" = Ok info
    ∧ equals doc info = claimed_equal doc info.
Proof.
  do 2 eexists. split; [vm_compute; reflexivity|].
  split; [vm_compute; reflexivity|].
  eapply (proj1 (proj2 (equals_built_iff Sample.rfc2822_of_iso Sample.now
                          "moonlight" (Sample.options "moonlight") "c0ffee"
                          (JList [Sample.issue "Arksine" "Release" "Notes" 7;
                                  Sample.issue "Arksine" "Hotfix" "Notes" 8]) _ _
                          ltac:(vm_compute; reflexivity)))).
  - vm_compute. reflexivity.
  - vm_compute. apply NoDup_cons. split; [|apply NoDup_singleton].
    rewrite list_elem_of_singleton. discriminate.
Defined.

Lemma description_of_authorized_witness :
  ∃ doc item,
    Sample.build Sample.now
      [Sample.issue "Arksine" "Release" ("New release." +:+ Str.crlf) 7] = Ok doc
    ∧ item ∈ items_of (root doc)
    ∧ ET.findtext item "description" = Some "New release.".
Proof.
  eexists.
  destruct (description_of_authorized Sample.rfc2822_of_iso Sample.now "moonlight"
              (Sample.options "moonlight") "c0ffee"
              (JList [Sample.issue "Arksine" "Release" ("New release." +:+ Str.crlf) 7])
              _ _ (Sample.issue "Arksine" "Release" ("New release." +:+ Str.crlf) 7)
              "Arksine"
              ltac:(vm_compute; reflexivity) eq_refl
              ltac:(apply list_elem_of_singleton; reflexivity)
              eq_refl
              ltac:(vm_compute; apply list_elem_of_singleton; reflexivity))
    as (body & number & item & Hbody & _ & Hin & _ & Hd & _).
  exists item. split; [vm_compute; reflexivity|]. split; [exact Hin|].
  injection Hbody as <-. exact Hd.
Defined.

Lemma hash_config_order_independent_witness :
  fingerprint "moonlight" (Sample.options "moonlight")
  = fingerprint "moonlight"
      (JDict [("authorized_creators", JList [JStr "Arksine"]);
              ("description", JStr "Announcements");
              ("repo_name", JStr "moonlight");
              ("repo_owner", JStr "Arksine")]).
Proof.
  apply hash_config_order_independent.
  - compute_done.
  - apply (Permutation_rev [("repo_owner", JStr "Arksine");
                            ("repo_name", JStr "moonlight");
                            ("description", JStr "Announcements");
                            ("authorized_creators", JList [JStr "Arksine"])]).
Defined.

Lemma empty_guid_never_equal_witness :
  ∃ info, get_feed_info (write Sample.guidless ∅) "moonlight" = Ok info
          ∧ equals Sample.guidless info = false.
Proof.
  eexists. split; [vm_compute; reflexivity|].
  apply empty_guid_never_equal. vm_compute. reflexivity.
Defined.

Lemma fetch_failure_policy_witness :
  Sample.run Sample.unreachable_world
  = Aborted TransportError (asset_files Sample.unreachable_world).
Proof.
  refine (proj2 (fetch_failure_policy Sample.rfc2822_of_iso SHA256.digest
                   Json.dumps Sample.unreachable_world
                   [] "moonlight" (Sample.options "moonlight")
                   [("fluidd", Sample.options "fluidd")] _ _ _
                   eq_refl eq_refl ltac:(vm_compute; reflexivity)
                   ltac:(vm_compute; reflexivity))
                TransportError _).
  vm_compute. reflexivity.
Defined.

Lemma malformed_issue_aborts_witness :
  ∃ e, Sample.run Sample.malformed_world
       = Aborted e (asset_files Sample.malformed_world).
Proof.
  destruct (malformed_issue_aborts Sample.rfc2822_of_iso SHA256.digest
              Json.dumps Sample.malformed_world
              [] "moonlight" (Sample.options "moonlight")
              [("fluidd", Sample.options "fluidd")] _ _ _
              (Sample.ok_response [Sample.untitled_issue "Arksine" "Notes" 7])
              _ _ _ (Sample.untitled_issue "Arksine" "Notes" 7) "Arksine" "title"
              ltac:(compute_done) eq_refl eq_refl
              ltac:(vm_compute; reflexivity) ltac:(vm_compute; reflexivity)
              ltac:(vm_compute; reflexivity)
              eq_refl ltac:(vm_compute; reflexivity) eq_refl eq_refl
              ltac:(apply list_elem_of_singleton; reflexivity)
              eq_refl ltac:(vm_compute; apply list_elem_of_singleton; reflexivity)
              ltac:(compute_done) eq_refl)
    as (e & _ & Hm & _).
  exists e. exact Hm.
Defined.

Lemma commit_iff_some_feed_changed_witness :
  ∃ out a cw tok,
    Sample.run Sample.fresh_world = Finished out a cw
    ∧ out = [tok] ∧ (tok = "commit" ∨ tok = "skip").
Proof.
  destruct (Sample.run Sample.fresh_world) as [out a cw|e a] eqn:Hrun;
    [|by vm_compute in Hrun].
  destruct (commit_iff_some_feed_changed Sample.rfc2822_of_iso SHA256.digest
              Json.dumps Sample.fresh_world out a cw
              ltac:(compute_done) Hrun)
    as (tok & Ho & Ht & _).
  by exists out, a, cw, tok.
Defined.

Lemma persisted_cache_keys_witness :
  ∃ out a c,
    Sample.run Sample.fresh_world = Finished out a (Some c)
    ∧ dom c = list_to_set ["moonlight"; "fluidd"].
Proof.
  destruct (Sample.run Sample.fresh_world) as [out a [c|]|e a] eqn:Hrun;
    [|by vm_compute in Hrun..].
  exists out, a, c. split; [done|].
  apply (persisted_cache_keys Sample.rfc2822_of_iso SHA256.digest
           Json.dumps Sample.fresh_world out a c
           ltac:(compute_done) Hrun).
Defined.

Lemma unfetched_entry_keeps_token_witness :
  ∃ out a c,
    Sample.run Sample.not_modified_world = Finished out a (Some c)
    ∧ (c !! "moonlight") ≫= (.!! "etag")
      = (cache Sample.not_modified_world !! "moonlight") ≫= (.!! "etag").
Proof.
  destruct (Sample.run Sample.not_modified_world) as [out a [c|]|e a] eqn:Hrun;
    [|by vm_compute in Hrun..].
  exists out, a, c. split; [done|].
  destruct (unfetched_entry_keeps_token Sample.rfc2822_of_iso SHA256.digest
              Json.dumps Sample.not_modified_world out a c
              "moonlight" (Sample.options "moonlight") (Sample.status_response 304)
              ltac:(compute_done) Hrun
              ltac:(left) ltac:(vm_compute; reflexivity) ltac:(vm_compute; discriminate))
    as (h & _ & _ & Hk).
  by apply Hk.
Defined.
